(** * copy_videos.py: migration of videos between two Brightcove accounts

  A shallow embedding of [bin/copy_videos.py] and the properties of its
  rendition selection, streaming download, upload step and batch
  bookkeeping.

  Python 2 [str] values are byte strings and are modelled by [string].
  The script runs in a state made of the remote platform, the local
  files, the objects it allocated and the log it produced; a Python
  function becomes a state transformer that returns a value or raises. *)

From Stdlib Require Import ZArith String Ascii List Lia DecimalString.
From stdpp Require Import base option list gmap strings.

Local Open Scope string_scope.
Local Open Scope list_scope.

(** ** Byte strings *)

Module Str.

(** [s[:n]] *)
Fixpoint take (n : nat) (s : string) : string :=
  match n, s with
  | S n', String c s' => String c (take n' s')
  | _, _ => ""
  end.

(** [s[n:]] *)
Fixpoint drop (n : nat) (s : string) : string :=
  match n, s with
  | S n', String _ s' => drop n' s'
  | _, _ => s
  end.

(** [''.join(l)] *)
Definition concat (l : list string) : string :=
  fold_right String.append "" l.

(** The characters [str.strip()] removes: space, and tab, line feed,
    vertical tab, form feed and carriage return (codes 9 to 13). *)
Definition is_space (c : ascii) : bool :=
  let n := nat_of_ascii c in
  Nat.eqb n 32 || (Nat.leb 9 n && Nat.leb n 13).

Fixpoint lstrip (s : string) : string :=
  match s with
  | String c s' => if is_space c then lstrip s' else s
  | "" => ""
  end.

Fixpoint rstrip (s : string) : string :=
  match s with
  | String c s' =>
      match rstrip s' with
      | "" => if is_space c then "" else String c ""
      | r => String c r
      end
  | "" => ""
  end.

(** [s.strip()] *)
Definition strip (s : string) : string := rstrip (lstrip s).

Definition is_newline (c : ascii) : bool := Nat.eqb (nat_of_ascii c) 10.

(** The lines a file object yields when iterated: each keeps its line
    feed, the last one may lack it, and an empty file has none. *)
Fixpoint readlines (s : string) : list string :=
  match s with
  | "" => []
  | String c s' =>
      if is_newline c then String c "" :: readlines s'
      else match readlines s' with
           | [] => [String c ""]
           | l :: ls => String c l :: ls
           end
  end.

Definition is_slash (c : ascii) : bool := Nat.eqb (nat_of_ascii c) 47.

Fixpoint has_slash (s : string) : bool :=
  match s with
  | "" => false
  | String c s' => is_slash c || has_slash s'
  end.

(** [os.path.basename(p)]: what follows the last slash. *)
Fixpoint basename (p : string) : string :=
  match p with
  | "" => ""
  | String c p' =>
      if has_slash p' then basename p'
      else if is_slash c then p' else p
  end.

End Str.

(** ** Renditions and the choice of the best one *)

Module Rendition.
Record t : Type := mk
  { url : option string;
    video_codec : string;
    size : Z }.
End Rendition.

(** [rendition.url is not None and rendition.url.startswith('http')] *)
Definition eligible (r : Rendition.t) : bool :=
  match Rendition.url r with
  | Some u => String.prefix "http" u
  | None => false
  end.

(** One turn of the loop of [download_video] over [v.renditions]. *)
Definition select_step (best_rendition : option Rendition.t) (rendition : Rendition.t)
  : option Rendition.t :=
  if eligible rendition then
  match best_rendition with
  | None => Some rendition
  | Some b =>
      if (Rendition.size rendition >? Rendition.size b)%Z
      then Some rendition else best_rendition
  end
  else best_rendition.

(** The value of [best_rendition] when the loop ends. *)
Definition best_rendition (renditions : list Rendition.t) : option Rendition.t :=
  fold_left select_step renditions None.

(** ** Video objects and the remote platform *)

(** The two module-level connections. *)
Inductive APIConnection : Type := OLDCONN | NEWCONN.

Module Video.
Record t : Type := mk
  { id : option string;
    renditions : option (list Rendition.t);
    connection : APIConnection;
    _filename : option string;
    metadata : list (string * string) }.

Definition set_id (x : option string) (v : t) : t :=
  mk x (renditions v) (connection v) (_filename v) (metadata v).
Definition set_renditions (x : option (list Rendition.t)) (v : t) : t :=
  mk (id v) x (connection v) (_filename v) (metadata v).
Definition set_connection (x : APIConnection) (v : t) : t :=
  mk (id v) (renditions v) x (_filename v) (metadata v).
Definition set_filename (x : option string) (v : t) : t :=
  mk (id v) (renditions v) (connection v) x (metadata v).
End Video.

(** What an account answers when asked for a video by id. *)
Record VideoData : Type := mkVideoData
  { vd_id : string;
  vd_renditions : list Rendition.t;
  vd_metadata : list (string * string) }.

(** [urllib2.HTTPError] (with its [code]) and [urllib2.URLError] (with
  its [reason]). *)
Inductive transport_error : Type :=
| HTTPError (code : string)
| URLError (reason : string).

(** An open HTTP response: the bytes not yet read and, when a [read] is
  going to raise one of the two errors the handlers of [download_video]
  name, how many more bytes it still delivers and the error raised
  then. [urllib2] itself raises these two from [urlopen]; a connection
  that breaks under [read] raises [socket.error] or [IncompleteRead],
  which the script does not handle and which are left out here. *)
Record Response : Type := mkResponse
  { body : string;
  cut : option (nat * transport_error) }.

(** [req.read(n)]: at most [n] bytes, none only at the end of the body. *)
Definition read (n : nat) (req : Response) : transport_error + string * Response :=
  let k := Nat.min n (String.length (body req)) in
  match cut req with
  | Some (avail, e) =>
    if Nat.ltb avail k then inl e
    else inr (Str.take k (body req),
              mkResponse (Str.drop k (body req)) (Some (avail - k, e)))
  | None =>
    inr (Str.take k (body req), mkResponse (Str.drop k (body req)) None)
  end.

(** [pybrightcove.exceptions.IllegalValueError] *)
Record IllegalValueError : Type := mkIllegalValueError
  { code : string;
  description : string }.

(** The platform SDK and the network, seen from the script: each call
  may change the remote state [World]. *)
Class Platform : Type := mkPlatform
  { World : Type;
  (** the lookup made by [Video(id=..., _connection=...)]; [None] is
      [NoDataFoundError] *)
  find_video_by_id : World -> APIConnection -> string -> World * option VideoData;
  (** [urllib2.urlopen(url)] *)
  urlopen : World -> string -> World * (transport_error + Response);
  (** the [create_video] call behind [Video.save()], answering the new
      identifier *)
  create_video : World -> Video.t -> World * (IllegalValueError + string) }.

(** ** Program state, exceptions and the monad of the script *)

Inductive level : Type := DEBUG | INFO | WARNING | CRITICAL.

(** [logging.basicConfig(level=logging.INFO)] *)
Definition enabled (l : level) : bool :=
  match l with DEBUG => false | _ => true end.

Inductive exn : Type :=
| NameError (name : string)
| AttributeError (msg : string)
| TypeError (msg : string)
| SystemExit (status : Z).

(** What [download_video] and [upload_video] hand back: [None], [False]
  or a reference to a [Video] object. *)
Inductive pyval : Type :=
| PNone
| PFalse
| PRef (r : nat).

Inductive result (A : Type) : Type :=
| Ok (a : A)
| Raise (e : exn)
| NoFuel.
Arguments Ok {A} a.
Arguments Raise {A} e.
Arguments NoFuel {A}.

Section Script.
Context `{P : Platform}.

(** A file is kept as the sequence of [write] calls made since it was
    created; its contents are their concatenation. Paths are compared
    as written. *)
Record State : Type := mkState
  { world : World;
    fs : gmap string (list string);
    opened : gset string;
    heap : list Video.t;
    log : list (level * string);
    g_name : option string }.

Definition set_world (w : World) (s : State) : State :=
  mkState w (fs s) (opened s) (heap s) (log s) (g_name s).
Definition set_fs (f : gmap string (list string)) (s : State) : State :=
  mkState (world s) f (opened s) (heap s) (log s) (g_name s).
Definition set_opened (o : gset string) (s : State) : State :=
  mkState (world s) (fs s) o (heap s) (log s) (g_name s).
Definition set_heap (h : list Video.t) (s : State) : State :=
  mkState (world s) (fs s) (opened s) h (log s) (g_name s).
Definition set_log (l : list (level * string)) (s : State) : State :=
  mkState (world s) (fs s) (opened s) (heap s) l (g_name s).
Definition set_g_name (n : option string) (s : State) : State :=
  mkState (world s) (fs s) (opened s) (heap s) (log s) n.

Definition M (A : Type) : Type := State -> result A * State.

Definition ret {A} (a : A) : M A := fun s => (Ok a, s).

Definition bind {A B} (m : M A) (k : A -> M B) : M B :=
  fun s =>
    match m s with
    | (Ok a, s') => k a s'
    | (Raise e, s') => (Raise e, s')
    | (NoFuel, s') => (NoFuel, s')
    end.

Definition raise {A} (e : exn) : M A := fun s => (Raise e, s).
Definition out_of_fuel {A} : M A := fun s => (NoFuel, s).
Definition gets {A} (f : State -> A) : M A := fun s => (Ok (f s), s).
Definition modify (f : State -> State) : M unit := fun s => (Ok tt, f s).

#[local] Instance M_ret : MRet M := @ret.
#[local] Instance M_bind : MBind M := fun A B k m => bind m k.

(** *** Logging *)

Definition logger_log (l : level) (msg : string) : M unit :=
  modify (fun s => if enabled l then set_log (log s ++ [(l, msg)]) s else s).
Definition logger_debug := logger_log DEBUG.
Definition logger_info := logger_log INFO.
Definition logger_warn := logger_log WARNING.
Definition logger_critical := logger_log CRITICAL.

(** *** Local files *)

Definition contents (ws : list string) : string := Str.concat ws.

(** [os.path.isfile(p)] *)
Definition isfile (p : string) : M bool :=
  gets (fun s => bool_decide (is_Some (fs s !! p))).

(** [open(p, 'w')]: creates the file or empties it. *)
Definition open_w (p : string) : M unit :=
  modify (fun s => set_opened ({[p]} ∪ opened s) (set_fs (<[p := []]> (fs s)) s)).

(** [fp.write(data)] *)
Definition fwrite (p data : string) : M unit :=
  modify (fun s => set_fs (alter (fun ws => ws ++ [data]) p (fs s)) s).

(** [fp.close()] *)
Definition fclose (p : string) : M unit :=
  modify (fun s => set_opened (opened s ∖ {[p]}) s).

(** *** Objects *)

Definition alloc (v : Video.t) : M nat :=
  fun s => (Ok (length (heap s)), set_heap (heap s ++ [v]) s).

Definition getattr {A} (r : nat) (f : Video.t -> A) : M A :=
  fun s =>
    match heap s !! r with
    | Some v => (Ok (f v), s)
    | None => (Raise (AttributeError "dangling reference"), s)
    end.

Definition setattr (r : nat) (f : Video.t -> Video.t) : M unit :=
  modify (fun s => set_heap (alter f r (heap s)) s).

(** *** The platform calls *)

(** [Video(id=id, _connection=conn, ...)]: the object built from the
    account's answer, or [None] for [NoDataFoundError]. *)
Definition Video_init (id : string) (conn : APIConnection) : M (option nat) :=
  fun s =>
    match find_video_by_id (world s) conn id with
    | (w, Some d) =>
        (r ← alloc (Video.mk (Some (vd_id d)) (Some (vd_renditions d)) conn
                      None (vd_metadata d));
         ret (Some r)) (set_world w s)
    | (w, None) => (Ok None, set_world w s)
    end.

Definition urlopen_ (u : string) : M (transport_error + Response) :=
  fun s => let (w, o) := urlopen (world s) u in (Ok o, set_world w s).

(** ** The script *)

Definition DOWNLOAD_DIR : string := "./downloads/".

Definition CHUNK : nat := 4096.
Arguments CHUNK : simpl never.

(** [str(n)] for a count. *)
Definition str_nat (n : nat) : string := NilZero.string_of_uint (Nat.to_uint n).

(** [str(x)] for an attribute that may be [None]. *)
Definition str_opt (x : option string) : string :=
  match x with Some s => s | None => "None" end.

(** The global [url], read by the two handlers of [download_video]: the
    module never binds it. *)
Definition global_url : M string := raise (NameError "url").

(** The global [name], bound by the loop at the end of the module. *)
Definition global_name : M string :=
  fun s =>
    match g_name s with
    | Some n => (Ok n, s)
    | None => (Raise (NameError "name"), s)
    end.

(** The local file name chosen for a video: lines 126 to 130. *)
Definition local_fname (id codec : string) : string :=
  let fname := DOWNLOAD_DIR +:+ id in
  if String.eqb codec "H264" then fname +:+ ".mp4"
  else if String.eqb codec "M2TS" then fname +:+ ".m2ts"
  else fname.

(** The [while True] loop of [download_video]; its value is that of
    [downloaded] at the [break], or the transport error a [read] raised.
    [fuel] bounds the number of turns. *)
Fixpoint copy_loop (fuel : nat) (req : Response) (fp : string) (downloaded : nat)
  : M (transport_error + nat) :=
  match fuel with
  | O => out_of_fuel
  | S fuel' =>
      match read CHUNK req with
      | inl e => mret (inl e)
      | inr (chunk, req') =>
          let downloaded := downloaded + String.length chunk in
          match chunk with
          | "" => mret (inr downloaded)
          | _ => fwrite fp chunk;; copy_loop fuel' req' fp downloaded
          end
      end
  end.

(** The body of the [try] of [download_video]; [inl e] stands for the
    exception [e] reaching the [except] clauses. Leaving the [with] block
    closes the file either way. *)
Definition fetch_to_file (v : nat) (u fname : string) : M (transport_error + unit) :=
  o ← urlopen_ u;
  match o with
  | inl e => mret (inl e)
  | inr req =>
      open_w fname;;
      r ← copy_loop (S (String.length (body req))) req fname 0;
      fclose fname;;
      match r with
      | inl e => mret (inl e)
      | inr downloaded =>
          logger_debug ("  bytes downloaded: " +:+ str_nat downloaded);;
          setattr v (Video.set_filename (Some fname));;
          mret (inr tt)
      end
  end.

Definition download_video (id : string) : M pyval :=
  logger_info ("Video(" +:+ id +:+ ")");;
  o ← Video_init id OLDCONN;
  match o with
  | None =>
      logger_warn ("  **> No data found for (" +:+ id +:+ ")");;
      mret PNone
  | Some v =>
      rs ← getattr v Video.renditions;
      match rs with
      | None => raise (TypeError "'NoneType' object is not iterable")
      | Some renditions =>
          match best_rendition renditions with
          | None =>
              logger_warn ("  No best rendition found for (" +:+ id +:+ "). Skipping.");;
              mret PNone
          | Some best =>
              let fname := local_fname id (Rendition.video_codec best) in
              vid ← getattr v Video.id;
              logger_info ("  fetching ID(" +:+ str_opt vid +:+ ") codec("
                           +:+ Rendition.video_codec best +:+ ") to (" +:+ fname +:+ ")");;
              match Rendition.url best with
              | None => raise (TypeError "url is None")
              | Some u =>
                  r ← fetch_to_file v u fname;
                  match r with
                  | inl (HTTPError code) =>
                      url ← global_url;
                      logger_warn ("HTTP Error: " +:+ code +:+ " - (" +:+ url +:+ ")");;
                      mret PFalse
                  | inl (URLError reason) =>
                      url ← global_url;
                      logger_warn ("URL Error: " +:+ reason +:+ " - (" +:+ url +:+ ")");;
                      mret PFalse
                  | inr _ => mret (PRef v)
                  end
              end
          end
      end
  end.

(** Modelled from the spec: [Video.save()] belongs to the SDK, which is
    not among the sources. The destination account either rejects the
    record with an [IllegalValueError] and leaves the object as it was,
    or creates the video and assigns the object its new identifier. *)
Definition Video_save (r : nat) : M (IllegalValueError + unit) :=
  fun s =>
    match heap s !! r with
    | None => (Raise (AttributeError "dangling reference"), s)
    | Some v =>
        match create_video (world s) v with
        | (w, inl e) => (Ok (inl e), set_world w s)
        | (w, inr new_id) =>
            (Ok (inr tt),
             set_heap (alter (Video.set_id (Some new_id)) r (heap s)) (set_world w s))
        end
    end.

Definition upload_video (v : pyval) : M pyval :=
  match v with
  | PRef r =>
      setattr r (Video.set_connection NEWCONN);;
      setattr r (Video.set_id None);;
      setattr r (Video.set_renditions None);;
      res ← Video_save r;
      match res with
      | inl e =>
          logger_warn ("  Upload error: (" +:+ code e +:+ ") - " +:+ description e);;
          mret PNone
      | inr _ => mret (PRef r)
      end
  | PFalse => raise (AttributeError "'bool' object has no attribute 'connection'")
  | PNone => raise (AttributeError "'NoneType' object has no attribute 'connection'")
  end.

(** The double quote character. *)
Definition dq : string := String (ascii_of_nat 34) EmptyString.

(** A line feed. *)
Definition nl : string := String (ascii_of_nat 10) EmptyString.

(** The line [record_old_new_ids] writes. *)
Definition csv_row (oldid newid : string) : string :=
  dq +:+ oldid +:+ dq +:+ "," +:+ dq +:+ newid +:+ dq +:+ nl.

Definition csv_header : string := csv_row "old_id" "new_id".

Definition record_old_new_ids (fh oldid : string) (newid : option string) : M unit :=
  fwrite fh (csv_row oldid (str_opt newid)).

(** The body of the [for oldId in lines] loop. *)
Definition process_video (csv oldId : string) : M unit :=
  v ← download_video oldId;
  match v with
  | PNone => mret tt
  | _ =>
      v ← upload_video v;
      match v with
      | PNone => mret tt
      | PRef r =>
          new_id ← getattr r Video.id;
          record_old_new_ids csv oldId new_id;;
          setattr r (Video.set_id (Some oldId))
      | PFalse => raise (AttributeError "'bool' object has no attribute 'id'")
      end
  end.

Fixpoint for_each {A} (body : A -> M unit) (l : list A) : M unit :=
  match l with
  | [] => mret tt
  | x :: l' => body x;; for_each body l'
  end.

Definition csvfname_of (fname : string) : string :=
  "./old_new_ids-" +:+ Str.basename fname +:+ ".csv".

Definition process_videos_list (fname : string) : M unit :=
  f ← gets (fun s => fs s !! fname);
  match f with
  | None => logger_warn ("File not found! (" +:+ fname +:+ ")")
  | Some ws =>
      let lines := map Str.strip (Str.readlines (contents ws)) in
      name ← global_name;
      logger_info ("Starting (" +:+ name +:+ ")");;
      let csvfname := csvfname_of fname in
      b ← isfile csvfname;
      if b : bool then
        logger_critical ("CSV file already exists! (" +:+ csvfname +:+ ").  Exiting.");;
        raise (SystemExit 1)
      else
        open_w csvfname;;
        logger_info ("Recording old_id,new_id to (" +:+ csvfname +:+ ")");;
        fwrite csvfname csv_header;;
        for_each (process_video csvfname) lines;;
        fclose csvfname
  end.

(** The loop [for name in sys.argv[1:]], which binds the global [name]. *)
Definition process_lists (argv : list string) : M unit :=
  for_each (fun name => modify (set_g_name (Some name));; process_videos_list name) argv.

(** The module's top level from [logger.info("Start")] on, run with
    [sys.argv[1:]]. The download directory is taken to exist. *)
Definition main (argv : list string) : M unit :=
  logger_info "Start";;
  process_lists argv;;
  logger_info "Done.".

(** The exit status of the interpreter for a run of the module. *)
Definition exit_status {A} (r : result A) : option Z :=
  match r with
  | Ok _ => Some 0%Z
  | Raise (SystemExit n) => Some n
  | Raise _ => Some 1%Z
  | NoFuel => None
  end.

(** The state [fetch_to_file] leaves when the writes [ws] went to [fname]. *)
Definition downloaded_state (v : nat) (fname : string) (ws : list string)
    (w : World) (s : State) : State :=
  set_heap (alter (Video.set_filename (Some fname)) v (heap s))
    (set_opened (({[fname]} ∪ opened s) ∖ {[fname]})
       (set_fs (<[fname := ws]> (fs s)) (set_world w s))).

(** The state in which [download_video] starts the transfer of the
    rendition [b] of the video [d] it fetched. *)
Definition started (id : string) (d : VideoData) (b : Rendition.t)
    (w : World) (s : State) : State :=
  set_log (log s ++ [(INFO, "Video(" +:+ id +:+ ")");
                     (INFO, "  fetching ID(" +:+ vd_id d +:+ ") codec("
                            +:+ Rendition.video_codec b +:+ ") to ("
                            +:+ local_fname id (Rendition.video_codec b) +:+ ")")])
    (set_heap (heap s ++ [Video.mk (Some (vd_id d)) (Some (vd_renditions d)) OLDCONN
                            None (vd_metadata d)])
       (set_world w s)).

(** What the loop body does for one identifier apart from writing its
    row: the new identifier when the video migrated, [None] when
    [download_video] or [upload_video] returned [None]. *)
Definition transfer (oldId : string) : M (option string) :=
  v ← download_video oldId;
  match v with
  | PNone => mret None
  | _ =>
      v ← upload_video v;
      match v with
      | PNone => mret None
      | PRef r =>
          new_id ← getattr r Video.id;
          setattr r (Video.set_id (Some oldId));;
          mret (Some (str_opt new_id))
      | PFalse => raise (AttributeError "'bool' object has no attribute 'id'")
      end
  end.

(** The identifiers of [ids] that migrate when the loop runs from [s],
    with their new identifiers, up to the first one on which the loop
    body raises. *)
Fixpoint migrated (csv : string) (ids : list string) (s : State)
  : list (string * string) :=
  match ids with
  | [] => []
  | oldId :: ids' =>
      match transfer oldId s with
      | (Ok (Some new_id), s') =>
          (oldId, new_id)
            :: migrated csv ids' (snd (fwrite csv (csv_row oldId new_id) s'))
      | (Ok None, s') => migrated csv ids' s'
      | _ => []
      end
  end.

(** No identifier of [ids] makes the loop body raise. *)
Fixpoint completes (csv : string) (ids : list string) (s : State) : bool :=
  match ids with
  | [] => true
  | oldId :: ids' =>
      match transfer oldId s with
      | (Ok (Some new_id), s') =>
          completes csv ids' (snd (fwrite csv (csv_row oldId new_id) s'))
      | (Ok None, s') => completes csv ids' s'
      | _ => false
      end
  end.

(** The state in which the loop of [process_videos_list] starts: the
    CSV is open and holds the header. *)
Definition csv_opened (csvfname name : string) (s : State) : State :=
  set_fs (<[csvfname := [csv_header]]> (fs s))
    (set_log (log s ++ [(INFO, "Starting (" +:+ name +:+ ")");
                        (INFO, "Recording old_id,new_id to (" +:+ csvfname +:+ ")")])
       (set_opened ({[csvfname]} ∪ opened s) s)).

End Script.

(** The renditions a list offers for transfer, in their order. *)
Definition candidates (renditions : list Rendition.t) : list Rendition.t :=
  List.filter eligible renditions.

(** [b] is the first of the largest renditions of [l]: those before it
    are strictly smaller, those after it are not larger. *)
Definition first_largest (l : list Rendition.t) (b : Rendition.t) : Prop :=
  exists pre post,
    l = pre ++ b :: post /\
    Forall (fun r => (Rendition.size r < Rendition.size b)%Z) pre /\
    Forall (fun r => (Rendition.size r <= Rendition.size b)%Z) post.

(** A response that delivers its whole body before any break. *)
Definition delivers (req : Response) : bool :=
  match cut req with
  | Some (avail, _) => Nat.leb (String.length (body req)) avail
  | None => true
  end.

(** The extension [download_video] gives the local file. *)
Definition extension (codec : string) : string :=
  if String.eqb codec "H264" then ".mp4"
  else if String.eqb codec "M2TS" then ".m2ts"
  else "".

(** The object [Video(id=..., _connection=OLDCONN)] builds from the
    source account's answer. *)
Definition fetched (d : VideoData) : Video.t :=
  Video.mk (Some (vd_id d)) (Some (vd_renditions d)) OLDCONN None (vd_metadata d).

(** The record as [upload_video] hands it to [save()]. *)
Definition submitted (v : Video.t) : Video.t :=
  Video.set_renditions None (Video.set_id None (Video.set_connection NEWCONN v)).

(** * A small platform, and the script run on it *)

Module Demo.

(** [n] times the byte [c]. *)
Fixpoint replicate (n : nat) (c : ascii) : string :=
  match n with
  | O => ""
  | S n' => String c (replicate n' c)
  end.

Definition renditions_A : list Rendition.t :=
  [Rendition.mk (Some "http://cdn/a-low.mp4") "H264" 10;
   Rendition.mk (Some "rtmp://cdn/a-big.mp4") "H264" 90;
   Rendition.mk (Some "http://cdn/a-high.mp4") "H264" 50;
   Rendition.mk None "H264" 70;
   Rendition.mk (Some "http://cdn/a-mid.mp4") "H264" 50].

Definition video_A : VideoData := mkVideoData "A" renditions_A [("field_1", "a")].

Definition video_C : VideoData :=
  mkVideoData "C" [Rendition.mk (Some "http://cdn/c.m2ts") "M2TS" 7] [].

(** No rendition of [E] can be transferred. *)
Definition video_E : VideoData :=
  mkVideoData "E" [Rendition.mk None "H264" 5;
                   Rendition.mk (Some "rtmp://cdn/e.mp4") "H264" 9] [].

(** The server of [T] answers 404. *)
Definition video_T : VideoData :=
  mkVideoData "T" [Rendition.mk (Some "http://down/t.mp4") "H264" 3] [].

(** The connection to [K] breaks after 4097 bytes. *)
Definition video_K : VideoData :=
  mkVideoData "K" [Rendition.mk (Some "http://cut/k.mp4") "H264" 3] [].

(** The destination rejects [R]. *)
Definition video_R : VideoData :=
  mkVideoData "R" [Rendition.mk (Some "http://cdn/r.mp4") "H264" 3] [].

Definition body_A : string := replicate 4100 "a"%char.

Definition source (id : string) : option VideoData :=
  if String.eqb id "A" then Some video_A
  else if String.eqb id "C" then Some video_C
  else if String.eqb id "E" then Some video_E
  else if String.eqb id "T" then Some video_T
  else if String.eqb id "K" then Some video_K
  else if String.eqb id "R" then Some video_R
  else None.

Definition network (u : string) : transport_error + Response :=
  if String.eqb u "http://cdn/a-high.mp4" then inr (mkResponse body_A None)
  else if String.eqb u "http://cdn/c.m2ts" then inr (mkResponse "0123456" None)
  else if String.eqb u "http://cdn/r.mp4" then inr (mkResponse "xyz" None)
  else if String.eqb u "http://cut/k.mp4"
       then inr (mkResponse body_A (Some (4097, URLError "timed out")))
  else if String.eqb u "http://down/t.mp4" then inl (HTTPError "404")
  else inl (URLError "unknown host").

(** The destination numbers the videos it creates. *)
Definition destination (n : nat) (v : Video.t) : nat * (IllegalValueError + string) :=
  match Video._filename v with
  | Some f =>
      if String.eqb f "./downloads/R.mp4"
      then (n, inl (mkIllegalValueError "304" "invalid value"))
      else (S n, inr ("N" +:+ str_nat n))
  | None => (n, inl (mkIllegalValueError "303" "no file"))
  end.

#[local] Instance platform : Platform :=
  {| World := nat;
     find_video_by_id w _ id := (w, source id);
     urlopen w u := (w, network u);
     create_video := destination |}.

(** The working directory before the run. *)
Definition files : gmap string (list string) :=
  {[ "lists/abc.txt" := ["A" +:+ nl +:+ "  B " +:+ nl +:+ "C" +:+ nl];
     "atc.txt" := ["A" +:+ nl +:+ "T" +:+ nl +:+ "C" +:+ nl];
     "t.txt" := ["T" +:+ nl];
     "be.txt" := ["B" +:+ nl +:+ "E" +:+ nl +:+ "R"];
     "empty.txt" := [];
     "old.txt" := ["A" +:+ nl];
     "./old_new_ids-old.txt.csv" := [csv_header; csv_row "A" "N41"] ]}.

Definition start : State := mkState 0 files ∅ [] [] None.

(** [A] and [R] as [download_video] returns them. *)
Definition downloaded_A : Video.t :=
  Video.mk (Some "A") (Some renditions_A) OLDCONN (Some "./downloads/A.mp4")
    [("field_1", "a")].

Definition downloaded_R : Video.t :=
  Video.mk (Some "R") (Some (vd_renditions video_R)) OLDCONN
    (Some "./downloads/R.mp4") [].

(** A state in which both are on the heap. *)
Definition ready : State := mkState 0 files ∅ [downloaded_A; downloaded_R] [] None.

End Demo.

(** ** Notions used to state further properties *)

(** Of two choices the later one wins only when it is strictly larger. *)
Definition prefer (x y : option Rendition.t) : option Rendition.t :=
  match x, y with
  | None, _ => y
  | _, None => x
  | Some a, Some b => if (Rendition.size b >? Rendition.size a)%Z then y else x
  end.

Section Observations.
Context `{P : Platform}.

(** No file of [s] is missing in [s']. *)
Definition keeps_files (s s' : State) : Prop :=
  forall p, is_Some (fs s !! p) -> is_Some (fs s' !! p).


(** The ways a run of the script can end. *)
Definition ends_known (r : result unit) : Prop :=
  r = Ok tt \/ r = Raise (SystemExit 1) \/ r = Raise (NameError "url").

End Observations.

(** The identifiers of a list file: [[line.strip() for line in open(fname)]]. *)
Definition identifiers (content : string) : list string :=
  map Str.strip (Str.readlines content).

Fixpoint has_newline (s : string) : bool :=
  match s with
  | "" => false
  | String c s' => Str.is_newline c || has_newline s'
  end.

Definition starts_with_space (s : string) : bool :=
  match s with
  | "" => false
  | String c _ => Str.is_space c
  end.

Fixpoint ends_with_space (s : string) : bool :=
  match s with
  | "" => false
  | String c "" => Str.is_space c
  | String _ s' => ends_with_space s'
  end.

(** The string holds whitespace characters only. *)
Fixpoint all_space (s : string) : bool :=
  match s with
  | "" => true
  | String c s' => Str.is_space c && all_space s'
  end.

(** The string holds a double quote. *)
Fixpoint has_dq (s : string) : bool :=
  match s with
  | "" => false
  | String c s' => Nat.eqb (nat_of_ascii c) 34 || has_dq s'
  end.

(** A line of a file: no line feed, except for one at its end. *)
Definition is_line (l : string) : Prop :=
  exists b, has_newline b = false /\ (l = b \/ exists c, Str.is_newline c = true /\ l = b +:+ String c "").

(** The demo working directory with a list whose second line holds two
    spaces only. *)
Definition with_blank_line : @State Demo.platform :=
  @set_fs Demo.platform
    (<["gap.txt" := ["A" +:+ nl +:+ "  " +:+ nl +:+ "C" +:+ nl]]> Demo.files) Demo.start.

(** The demo working directory with a second list named [abc.txt], in
    another directory. *)
Definition two_directories : @State Demo.platform :=
  @set_fs Demo.platform (<["more/abc.txt" := ["C" +:+ nl]]> Demo.files) Demo.start.

(** * Properties *)

(** ** Byte strings *)

Lemma append_cons c s t : String c s +:+ t = String c (s +:+ t).
Proof. reflexivity. Qed.

Lemma append_empty_l s : "" +:+ s = s.
Proof. reflexivity. Qed.

Lemma take_drop n s : Str.take n s +:+ Str.drop n s = s.
Proof.
  revert s; induction n as [|n IH]; intros [|c s]; simpl; try reflexivity.
  now rewrite append_cons, IH.
Qed.

Lemma length_take n s : String.length (Str.take n s) = Nat.min n (String.length s).
Proof.
  revert s; induction n as [|n IH]; intros [|c s]; simpl; try reflexivity.
  now rewrite IH.
Qed.

Lemma length_drop n s : String.length (Str.drop n s) = String.length s - n.
Proof.
  revert s; induction n as [|n IH]; intros [|c s]; simpl; try reflexivity.
  apply IH.
Qed.

Lemma length_zero s : String.length s = 0 -> s = "".
Proof. destruct s; simpl; [reflexivity | discriminate]. Qed.

Lemma append_empty_r s : s +:+ "" = s.
Proof.
  induction s as [|c s IH]; [reflexivity | now rewrite append_cons, IH].
Qed.

Lemma append_assoc' s1 s2 s3 : (s1 +:+ s2) +:+ s3 = s1 +:+ s2 +:+ s3.
Proof.
  induction s1 as [|c s1 IH]; [reflexivity | now rewrite !append_cons, IH].
Qed.

Lemma length_append' s1 s2 :
  String.length (s1 +:+ s2) = String.length s1 + String.length s2.
Proof.
  induction s1 as [|c s1 IH]; [reflexivity|].
  rewrite append_cons. simpl. now rewrite IH.
Qed.

Lemma concat_app l1 l2 : Str.concat (l1 ++ l2) = Str.concat l1 +:+ Str.concat l2.
Proof.
  induction l1 as [|x l1 IH]; simpl; [reflexivity |].
  now rewrite IH, append_assoc'.
Qed.

Lemma CHUNK_pos : 0 < CHUNK.
Proof. unfold CHUNK. lia. Qed.

(** ** Rendition selection *)

Lemma prefix_http u :
  String.prefix "http" u = true <-> exists rest, u = "http" +:+ rest.
Proof.
  split.
  - intros H.
    destruct u as [|c1 [|c2 [|c3 [|c4 rest]]]]; simpl in H; try discriminate;
      repeat match type of H with
             | (if ?d then _ else _) = true => destruct d; [subst | discriminate]
             end; try discriminate.
    now exists rest.
  - intros [rest ->]. simpl.
    repeat match goal with
           | |- (if ?d then _ else _) = true => destruct d; [| congruence]
           end.
    now destruct rest.
Qed.

Lemma eligible_iff r :
  eligible r = true <->
  exists rest, Rendition.url r = Some ("http" +:+ rest).
Proof.
  unfold eligible. destruct (Rendition.url r) as [u|].
  - rewrite prefix_http. split; intros [rest H]; exists rest; congruence.
  - split; [discriminate | intros [? ?]; discriminate].
Qed.

Lemma select_step_some b r : select_step (Some b) r <> None.
Proof.
  unfold select_step. destruct (eligible r); [|discriminate].
  destruct (_ >? _)%Z; discriminate.
Qed.

Lemma fold_select_some rs b : fold_left select_step rs (Some b) <> None.
Proof.
  revert b; induction rs as [|r rs IH]; intros b; simpl; [discriminate|].
  destruct (select_step (Some b) r) as [b'|] eqn:E; [apply IH|].
  now apply select_step_some in E.
Qed.

Lemma first_largest_snoc_le l b r :
  first_largest l b -> (Rendition.size r <= Rendition.size b)%Z ->
  first_largest (l ++ [r]) b.
Proof.
  intros (pre & post & -> & Hpre & Hpost) Hle.
  exists pre, (post ++ [r]). split; [now rewrite <- app_assoc|].
  split; [assumption|]. apply Forall_app. split; [assumption|].
  now constructor.
Qed.

Lemma first_largest_snoc_gt l b r :
  first_largest l b -> (Rendition.size r > Rendition.size b)%Z ->
  first_largest (l ++ [r]) r.
Proof.
  intros (pre & post & -> & Hpre & Hpost) Hgt.
  exists (pre ++ b :: post), []. split; [reflexivity|].
  split; [|constructor].
  apply Forall_app. split.
  - eapply Forall_impl; [exact Hpre|]. simpl. intros; lia.
  - constructor; [lia|]. eapply Forall_impl; [exact Hpost|]. simpl. intros; lia.
Qed.

Lemma fold_select_first_largest rs l b b' :
  first_largest l b ->
  fold_left select_step rs (Some b) = Some b' ->
  first_largest (l ++ candidates rs) b'.
Proof.
  revert l b; induction rs as [|r rs IH]; intros l b Hb; simpl.
  - intros [= ->]. unfold candidates; simpl. now rewrite app_nil_r.
  - unfold candidates, select_step at 2; simpl.
    destruct (eligible r) eqn:El.
    + destruct (Rendition.size r >? Rendition.size b)%Z eqn:Hc; intros H.
      * change (first_largest (l ++ [r] ++ candidates rs) b').
        rewrite app_assoc. apply (IH (l ++ [r]) r); [|exact H].
        apply (first_largest_snoc_gt l b r); [assumption | lia].
      * change (first_largest (l ++ [r] ++ candidates rs) b').
        rewrite app_assoc. apply (IH (l ++ [r]) b); [|exact H].
        apply first_largest_snoc_le; [assumption | lia].
    + intros H. now apply (IH l b).
Qed.

Lemma best_rendition_spec renditions :
  match best_rendition renditions with
  | Some b => first_largest (candidates renditions) b
  | None => candidates renditions = []
  end.
Proof.
  unfold best_rendition.
  induction renditions as [|r rs IH]; simpl; [reflexivity|].
  unfold candidates, select_step at 2; simpl.
  destruct (eligible r) eqn:El; [|exact IH].
  destruct (fold_left select_step rs (Some r)) as [b|] eqn:E.
  - apply (fold_select_first_largest rs [r] r) in E; [exact E|].
    exists [], []. repeat split; constructor.
  - now apply fold_select_some in E.
Qed.

(** ** The script in its state *)

Section Properties.
Context `{P : Platform}.
#[local] Existing Instances M_ret M_bind.

Ltac unfold_monad :=
  unfold mbind, M_bind, bind, mret, M_ret, ret, raise, gets, modify,
    logger_info, logger_warn, logger_critical, logger_debug, logger_log,
    isfile, open_w, fwrite, fclose, alloc, getattr, setattr, urlopen_,
    global_url, global_name in *.


Lemma lookup_last {A} (l : list A) (x : A) : (l ++ [x]) !! length l = Some x.
Proof. now apply list_lookup_middle. Qed.

Lemma alter_last {A} (f : A -> A) (l : list A) (x : A) :
  alter f (length l) (l ++ [x]) = l ++ [f x].
Proof. induction l as [|y l IH]; simpl; [reflexivity | now f_equal]. Qed.

(** A missing video: two log lines, nothing else. *)
Lemma download_video_missing id s w :
  find_video_by_id (world s) OLDCONN id = (w, None) ->
  download_video id s =
    (Ok PNone,
     set_log (log s ++ [(INFO, "Video(" +:+ id +:+ ")");
                        (WARNING, "  **> No data found for (" +:+ id +:+ ")")])
       (set_world w s)).
Proof.
  intros H. unfold download_video, Video_init. unfold_monad. simpl.
  rewrite H. simpl. unfold set_log, set_world; simpl.
  now rewrite <- app_assoc.
Qed.

(** A video none of whose renditions can be transferred. *)
Lemma download_video_no_candidate id s w d :
  find_video_by_id (world s) OLDCONN id = (w, Some d) ->
  best_rendition (vd_renditions d) = None ->
  download_video id s =
    (Ok PNone,
     set_log (log s ++ [(INFO, "Video(" +:+ id +:+ ")");
                        (WARNING, "  No best rendition found for (" +:+ id
                                  +:+ "). Skipping.")])
       (set_heap (heap s ++ [fetched d]) (set_world w s))).
Proof.
  intros H Hb. unfold download_video, Video_init. unfold_monad. simpl.
  rewrite H. simpl. rewrite lookup_last. simpl. rewrite Hb.
  unfold set_log, set_world, set_heap, fetched; simpl.
  now rewrite <- app_assoc.
Qed.

(** *** The copy loop *)

Lemma read_delivers req :
  delivers req = true ->
  exists req',
    read CHUNK req
    = inr (Str.take (Nat.min CHUNK (String.length (body req))) (body req), req') /\
    body req' = Str.drop (Nat.min CHUNK (String.length (body req))) (body req) /\
    delivers req' = true.
Proof.
  unfold delivers, read.
  pose proof (Nat.le_min_r CHUNK (String.length (body req))) as Hk.
  destruct (cut req) as [[avail e]|]; intros H.
  - apply Nat.leb_le in H.
    destruct (Nat.ltb_spec avail (Nat.min CHUNK (String.length (body req)))) as [Hlt|Hge];
      [exfalso; lia|].
    eexists; split; [reflexivity|]. simpl. split; [reflexivity|].
    apply Nat.leb_le. rewrite length_drop. lia.
  - eexists; split; [reflexivity|]. simpl. now split.
Qed.

Lemma set_fs_id s : set_fs (fs s) s = s.
Proof. now destruct s. Qed.

Lemma concat_nonempty ws :
  Forall (fun c => 0 < String.length c <= CHUNK) ws -> ws <> [] ->
  0 < String.length (Str.concat ws).
Proof.
  intros HF Hne. destruct ws as [|c ws]; [congruence|].
  inversion HF; subst. simpl. rewrite length_append'. lia.
Qed.

(** With enough fuel the loop copies a body that arrives whole: it
    returns the number of bytes, and the file has grown by the writes
    [ws], each of at most [CHUNK] bytes and all but the last of exactly
    [CHUNK] bytes, which together are the body. *)
Lemma copy_loop_delivers fuel : forall req fp downloaded s ws0,
  delivers req = true ->
  String.length (body req) < fuel ->
  fs s !! fp = Some ws0 ->
  exists ws,
    copy_loop fuel req fp downloaded s
    = (Ok (inr (downloaded + String.length (body req))),
       set_fs (<[fp := ws0 ++ ws]> (fs s)) s) /\
    Str.concat ws = body req /\
    Forall (fun c => 0 < String.length c <= CHUNK) ws /\
    (forall i c, ws !! i = Some c -> S i < length ws -> String.length c = CHUNK).
Proof.
  induction fuel as [|fuel IH]; intros req fp downloaded s ws0 Hd Hfuel Hfp; [lia|].
  destruct (read_delivers req Hd) as (req' & Hread & Hbody & Hd').
  simpl. rewrite Hread. clear Hread.
  pose proof CHUNK_pos as Hpos.
  pose proof (Nat.min_spec CHUNK (String.length (body req))) as Hmin.
  set (k := Nat.min CHUNK (String.length (body req))) in *. clearbody k.
  pose proof (length_take k (body req)) as Hlen.
  pose proof (take_drop k (body req)) as Htd.
  pose proof (Nat.min_spec k (String.length (body req))) as Hmin'.
  destruct (Str.take k (body req)) as [|c chunk] eqn:Hchunk.
  - exists []. change (String.length "") with 0 in Hlen.
    assert (Hz : String.length (body req) = 0) by lia.
    rewrite Hz, (length_zero _ Hz), app_nil_r, (insert_id _ _ _ Hfp), set_fs_id.
    unfold mret, M_ret, ret. repeat split; try constructor.
    intros i c; rewrite lookup_nil; discriminate.
  - set (ck := String c chunk) in *.
    assert (Hck : 0 < String.length ck) by (unfold ck; simpl; lia).
    unfold mbind, M_bind, bind, fwrite, modify.
    assert (Hfp' : fs (set_fs (alter (fun ws => ws ++ [ck]) fp (fs s)) s) !! fp
                   = Some (ws0 ++ [ck])).
    { simpl. now rewrite lookup_alter_eq, Hfp. }
    assert (Hfuel' : String.length (body req') < fuel).
    { rewrite Hbody, length_drop. lia. }
    destruct (IH req' fp (downloaded + String.length ck) _ _ Hd' Hfuel' Hfp')
      as (ws & Hrun & Hcat & Hall & Hfull).
    exists (ck :: ws). rewrite Hrun. split; [|split; [|split]].
    + f_equal.
      * do 2 f_equal. rewrite Hbody, length_drop. lia.
      * unfold set_fs; simpl. f_equal.
        rewrite insert_alter_eq. now rewrite <- app_assoc.
    + simpl. now rewrite Hcat, Hbody.
    + constructor; [|assumption]. lia.
    + intros [|i] x Hx Hi; simpl in Hx, Hi.
      * injection Hx as <-.
        assert (Hne : ws <> []) by (destruct ws; simpl in Hi; [lia | congruence]).
        pose proof (concat_nonempty ws Hall Hne) as Hcn.
        rewrite Hcat, Hbody, length_drop in Hcn. lia.
      * apply (Hfull i x Hx). lia.
Qed.





(** *** The download *)

Lemma fetch_to_file_delivers v u fname s w req :
  urlopen (world s) u = (w, inr req) ->
  delivers req = true ->
  exists ws,
    fetch_to_file v u fname s = (Ok (inr tt), downloaded_state v fname ws w s) /\
    Str.concat ws = body req /\
    Forall (fun c => 0 < String.length c <= CHUNK) ws /\
    (forall i c, ws !! i = Some c -> S i < length ws -> String.length c = CHUNK).
Proof.
  intros Hopen Hd.
  set (s1 := set_opened ({[fname]} ∪ opened (set_world w s))
               (set_fs (<[fname := []]> (fs (set_world w s))) (set_world w s))).
  assert (Hfp : fs s1 !! fname = Some []) by (simpl; apply lookup_insert_eq).
  destruct (copy_loop_delivers (S (String.length (body req))) req fname 0 s1 []
              Hd (Nat.lt_succ_diag_r _) Hfp) as (ws & Hrun & Hcat & Hall & Hfull).
  exists ws. split; [|now repeat split].
  unfold fetch_to_file, urlopen_, open_w, fclose.
  unfold mbind, M_bind, bind, modify at 1.
  rewrite Hopen. fold s1. rewrite Hrun.
  unfold_monad. unfold downloaded_state, set_heap, set_opened, set_fs, set_world, s1.
  simpl. now rewrite insert_insert_eq.
Qed.


Lemma local_fname_extension id codec :
  local_fname id codec = DOWNLOAD_DIR +:+ id +:+ extension codec.
Proof.
  unfold local_fname, extension.
  destruct (String.eqb codec "H264"); [now rewrite append_assoc'|].
  destruct (String.eqb codec "M2TS"); [now rewrite append_assoc'|].
  now rewrite append_empty_r.
Qed.


(** The state in which [download_video] starts the transfer: the video
    is fetched and both lines are logged. *)
Lemma download_video_started id s w d b u :
  find_video_by_id (world s) OLDCONN id = (w, Some d) ->
  best_rendition (vd_renditions d) = Some b ->
  Rendition.url b = Some u ->
  download_video id s =
    (r ← fetch_to_file (length (heap s)) u (local_fname id (Rendition.video_codec b));
     match r with
     | inl (HTTPError code) =>
         url ← global_url;
         logger_warn ("HTTP Error: " +:+ code +:+ " - (" +:+ url +:+ ")");;
         mret PFalse
     | inl (URLError reason) =>
         url ← global_url;
         logger_warn ("URL Error: " +:+ reason +:+ " - (" +:+ url +:+ ")");;
         mret PFalse
     | inr _ => mret (PRef (length (heap s)))
     end) (started id d b w s).
Proof.
  intros H Hb Hu. unfold download_video, Video_init.
  unfold mbind, M_bind, bind, logger_info, logger_log, modify, alloc, getattr,
    mret, M_ret, ret. simpl.
  rewrite H. simpl. rewrite lookup_last. simpl. rewrite Hb.
  simpl. rewrite lookup_last. simpl. rewrite Hu.
  unfold started, set_log, set_heap, set_world, fetched. simpl.
  now rewrite <- app_assoc.
Qed.

(** A connection that breaks before the end of the body: the loop ends
    on the error, and what was written before stays in the file. *)
Lemma copy_loop_breaks fuel : forall req fp downloaded s ws0 avail e,
  cut req = Some (avail, e) ->
  avail < String.length (body req) ->
  String.length (body req) < fuel ->
  fs s !! fp = Some ws0 ->
  exists ws rest,
    copy_loop fuel req fp downloaded s
    = (Ok (inl e), set_fs (<[fp := ws0 ++ ws]> (fs s)) s) /\
    body req = Str.concat ws +:+ rest /\ rest <> "".
Proof.
  induction fuel as [|fuel IH]; intros req fp downloaded s ws0 avail e Hcut Hav Hfuel Hfp;
    [lia|].
  pose proof CHUNK_pos as Hpos.
  pose proof (Nat.min_spec CHUNK (String.length (body req))) as Hmin.
  simpl. unfold read. rewrite Hcut.
  set (k := Nat.min CHUNK (String.length (body req))) in *. clearbody k.
  destruct (Nat.ltb_spec avail k) as [Hlt|Hge].
  - exists [], (body req). rewrite app_nil_r, (insert_id _ _ _ Hfp), set_fs_id.
    repeat split. intros Hnil. rewrite Hnil in Hav. simpl in Hav. lia.
  - pose proof (length_take k (body req)) as Hlen.
    pose proof (take_drop k (body req)) as Htd.
    pose proof (Nat.min_spec k (String.length (body req))) as Hmin'.
    destruct (Str.take k (body req)) as [|c chunk] eqn:Hchunk.
    { change (String.length "") with 0 in Hlen. exfalso. lia. }
    set (ck := String c chunk) in *.
    unfold mbind, M_bind, bind, fwrite, modify.
    assert (Hfp' : fs (set_fs (alter (fun ws => ws ++ [ck]) fp (fs s)) s) !! fp
                   = Some (ws0 ++ [ck])).
    { simpl. now rewrite lookup_alter_eq, Hfp. }
    destruct (IH (mkResponse (Str.drop k (body req)) (Some (avail - k, e))) fp
                (downloaded + String.length ck)
                (set_fs (alter (fun ws => ws ++ [ck]) fp (fs s)) s)
                (ws0 ++ [ck]) (avail - k) e
                eq_refl) as (ws & rest & Hrun & Hcat & Hrest); [| |exact Hfp'|].
    + simpl. rewrite length_drop. lia.
    + simpl. rewrite length_drop.
      assert (0 < String.length ck) by (unfold ck; simpl; lia). lia.
    + exists (ck :: ws), rest. rewrite Hrun. split; [|split; [|assumption]].
      * f_equal. unfold set_fs; simpl. f_equal.
        rewrite insert_alter_eq. now rewrite <- app_assoc.
      * simpl in Hcat. simpl. rewrite append_assoc', <- Hcat. now symmetry.
Qed.

Lemma fetch_to_file_refused v u fname s w e :
  urlopen (world s) u = (w, inl e) ->
  fetch_to_file v u fname s = (Ok (inl e), set_world w s).
Proof.
  intros H. unfold fetch_to_file, urlopen_, mbind, M_bind, bind. now rewrite H.
Qed.

Lemma fetch_to_file_breaks v u fname s w req :
  urlopen (world s) u = (w, inr req) ->
  delivers req = false ->
  exists e ws rest,
    fetch_to_file v u fname s
    = (Ok (inl e),
       set_opened (({[fname]} ∪ opened s) ∖ {[fname]})
         (set_fs (<[fname := ws]> (fs s)) (set_world w s))) /\
    body req = Str.concat ws +:+ rest /\ rest <> "".
Proof.
  intros Hopen Hd. unfold delivers in Hd.
  destruct (cut req) as [[avail e]|] eqn:Hcut; [|discriminate].
  apply Nat.leb_gt in Hd.
  set (s1 := set_opened ({[fname]} ∪ opened (set_world w s))
               (set_fs (<[fname := []]> (fs (set_world w s))) (set_world w s))).
  assert (Hfp : fs s1 !! fname = Some []) by (simpl; apply lookup_insert_eq).
  destruct (copy_loop_breaks (S (String.length (body req))) req fname 0 s1 []
              avail e Hcut Hd (Nat.lt_succ_diag_r _) Hfp)
    as (ws & rest & Hrun & Hcat & Hrest).
  exists e, ws, rest. split; [|now split].
  unfold fetch_to_file, urlopen_, open_w, fclose.
  unfold mbind, M_bind, bind, modify at 1.
  rewrite Hopen. fold s1. rewrite Hrun.
  unfold_monad. unfold set_opened, set_fs, set_world, s1.
  simpl. now rewrite insert_insert_eq.
Qed.

(** *** The loop body around [download_video] *)

Lemma process_video_skip csv id s s' :
  download_video id s = (Ok PNone, s') ->
  process_video csv id s = (Ok tt, s').
Proof. intros H. unfold process_video, mbind, M_bind, bind. now rewrite H. Qed.

Lemma process_video_raise csv id s s' e :
  download_video id s = (Raise e, s') ->
  process_video csv id s = (Raise e, s').
Proof. intros H. unfold process_video, mbind, M_bind, bind. now rewrite H. Qed.

Lemma for_each_raise {A} (f : A -> M unit) x l s s' e :
  f x s = (Raise e, s') -> for_each f (x :: l) s = (Raise e, s').
Proof. intros H. simpl. unfold mbind, M_bind, bind. now rewrite H. Qed.

Lemma for_each_ok {A} (f : A -> M unit) x l s s' :
  f x s = (Ok tt, s') -> for_each f (x :: l) s = for_each f l s'.
Proof. intros H. simpl. unfold mbind, M_bind, bind. now rewrite H. Qed.

(** C1. Rendition selection. A rendition is a candidate exactly when its
    url is present and starts with "http"; the loop of [download_video]
    ends on the first of the largest candidates, or on [None] when there
    is no candidate; and with no candidate [download_video] logs a
    warning and returns [None] without touching a file, so that the loop
    body of [process_videos_list] ends normally and writes no row. *)
Theorem best_rendition_selection :
  (forall r,
     eligible r = true <-> exists rest, Rendition.url r = Some ("http" +:+ rest)) /\
  (forall renditions,
     match best_rendition renditions with
     | Some b => first_largest (candidates renditions) b
     | None => candidates renditions = []
     end) /\
  (forall id s w d,
     find_video_by_id (world s) OLDCONN id = (w, Some d) ->
     candidates (vd_renditions d) = [] ->
     exists s',
       download_video id s = (Ok PNone, s') /\
       (forall csv, process_video csv id s = (Ok tt, s')) /\
       fs s' = fs s /\ opened s' = opened s /\
       log s' = log s ++ [(INFO, "Video(" +:+ id +:+ ")");
                          (WARNING, "  No best rendition found for (" +:+ id
                                    +:+ "). Skipping.")]).
Proof.
  split; [exact eligible_iff|]. split; [exact best_rendition_spec|].
  intros id s w d Hfind Hnone.
  assert (Hb : best_rendition (vd_renditions d) = None).
  { pose proof (best_rendition_spec (vd_renditions d)) as Hspec.
    destruct (best_rendition (vd_renditions d)) as [b|]; [|reflexivity].
    destruct Hspec as (pre & post & Heq & _). rewrite Hnone in Heq.
    now destruct pre. }
  pose proof (download_video_no_candidate id s w d Hfind Hb) as Hrun.
  eexists. split; [exact Hrun|].
  split; [intros csv; now apply process_video_skip|].
  now repeat split.
Qed.

(** C7. A video the source account does not know. [download_video] logs
    a warning and returns [None]; no file is created or changed, no
    object is allocated, the loop body writes no row; and a second run
    on an identifier that is still missing ends the same way. *)
Theorem download_video_not_found id s w :
  find_video_by_id (world s) OLDCONN id = (w, None) ->
  exists s1,
    download_video id s = (Ok PNone, s1) /\
    (forall csv, process_video csv id s = (Ok tt, s1)) /\
    fs s1 = fs s /\ opened s1 = opened s /\ heap s1 = heap s /\
    log s1 = log s ++ [(INFO, "Video(" +:+ id +:+ ")");
                       (WARNING, "  **> No data found for (" +:+ id +:+ ")")] /\
    forall w', find_video_by_id (world s1) OLDCONN id = (w', None) ->
      exists s2,
        download_video id s1 = (Ok PNone, s2) /\
        (forall csv, process_video csv id s1 = (Ok tt, s2)) /\
        fs s2 = fs s /\ opened s2 = opened s /\ heap s2 = heap s.
Proof.
  intros H. pose proof (download_video_missing id s w H) as Hrun.
  eexists. split; [exact Hrun|].
  split; [intros csv; now apply process_video_skip|].
  repeat (split; [reflexivity|]).
  intros w' H'. pose proof (download_video_missing id _ w' H') as Hrun'.
  eexists. split; [exact Hrun'|].
  split; [intros csv; now apply process_video_skip|].
  now repeat split.
Qed.

(** C2. A download that hits a transport error. Both handlers of
    [download_video] read the global [url], which is bound nowhere: the
    call raises [NameError] instead of logging a warning and returning,
    whether [urlopen] fails or the connection breaks while the body is
    read (the part already written then stays on disk). The exception
    leaves the loop of [process_videos_list]: the identifiers that
    follow are not processed. *)
Theorem download_video_transport_error id s w d b u w' :
  find_video_by_id (world s) OLDCONN id = (w, Some d) ->
  best_rendition (vd_renditions d) = Some b ->
  Rendition.url b = Some u ->
  (forall e,
     urlopen w u = (w', inl e) ->
     exists s',
       download_video id s = (Raise (NameError "url"), s') /\
       fs s' = fs s /\
       log s' = log (started id d b w s) /\
       forall csv rest,
         for_each (process_video csv) (id :: rest) s = (Raise (NameError "url"), s')) /\
  (forall req,
     urlopen w u = (w', inr req) ->
     delivers req = false ->
     exists s' ws rest,
       download_video id s = (Raise (NameError "url"), s') /\
       fs s' = <[local_fname id (Rendition.video_codec b) := ws]> (fs s) /\
       body req = Str.concat ws +:+ rest /\ rest <> "" /\
       log s' = log (started id d b w s) /\
       forall csv rest',
         for_each (process_video csv) (id :: rest') s = (Raise (NameError "url"), s')).
Proof.
  intros Hfind Hb Hu. pose proof (download_video_started id s w d b u Hfind Hb Hu) as Hst.
  split.
  - intros e Hopen.
    pose proof (fetch_to_file_refused (length (heap s)) u
                  (local_fname id (Rendition.video_codec b)) (started id d b w s) w' e
                  Hopen) as Hf.
    assert (Hrun : download_video id s
                   = (Raise (NameError "url"), set_world w' (started id d b w s))).
    { rewrite Hst. unfold mbind, M_bind, bind. rewrite Hf. now destruct e. }
    eexists. split; [exact Hrun|]. repeat split.
    intros csv rest. apply for_each_raise. now apply process_video_raise.
  - intros req Hopen Hd.
    destruct (fetch_to_file_breaks (length (heap s)) u
                (local_fname id (Rendition.video_codec b)) (started id d b w s) w' req
                Hopen Hd) as (e & ws & rest & Hf & Hbody & Hrest).
    eexists _, ws, rest. split; [|split; [|split; [exact Hbody|split; [exact Hrest|]]]].
    + rewrite Hst. unfold mbind, M_bind, bind. rewrite Hf. now destruct e.
    + reflexivity.
    + split; [reflexivity|].
      intros csv rest'. apply for_each_raise. apply process_video_raise.
      rewrite Hst. unfold mbind, M_bind, bind. rewrite Hf. now destruct e.
Qed.


(** *** The upload *)

Lemma upload_video_run r s v :
  heap s !! r = Some v ->
  upload_video (PRef r) s =
    match create_video (world s) (submitted v) with
    | (w, inl e) =>
        (Ok PNone,
         set_log (log s ++ [(WARNING, "  Upload error: (" +:+ code e +:+ ") - "
                                      +:+ description e)])
           (set_world w (set_heap (<[r := submitted v]> (heap s)) s)))
    | (w, inr new_id) =>
        (Ok (PRef r),
         set_heap (<[r := Video.set_id (Some new_id) (submitted v)]> (heap s))
           (set_world w s))
    end.
Proof.
  intros Hv. pose proof (lookup_lt_Some _ _ _ Hv) as Hlt.
  assert (Hsub : alter (Video.set_renditions None) r
                   (alter (Video.set_id None) r
                      (alter (Video.set_connection NEWCONN) r (heap s)))
                 = <[r := submitted v]> (heap s)).
  { apply list_eq. intros j. destruct (decide (r = j)) as [<-|Hne].
    - rewrite !list_lookup_alter_eq, Hv, list_lookup_insert_eq by assumption.
      reflexivity.
    - now rewrite !list_lookup_alter_ne, list_lookup_insert_ne by assumption. }
  unfold upload_video, Video_save. unfold_monad. simpl. rewrite Hsub.
  rewrite list_lookup_insert_eq by assumption.
  destruct (create_video (world s) (submitted v)) as [w [e|new_id]]; simpl.
  - reflexivity.
  - f_equal. unfold set_heap, set_world; simpl. f_equal.
    apply list_eq. intros j. destruct (decide (r = j)) as [<-|Hne].
    + rewrite list_lookup_alter_eq, !list_lookup_insert_eq by assumption.
      reflexivity.
    + now rewrite list_lookup_alter_ne, !list_lookup_insert_ne by assumption.
Qed.

Lemma process_video_rejected csv oldId s0 s r s' :
  download_video oldId s0 = (Ok (PRef r), s) ->
  upload_video (PRef r) s = (Ok PNone, s') ->
  process_video csv oldId s0 = (Ok tt, s').
Proof.
  intros Hd Hu. unfold process_video, mbind, M_bind, bind. now rewrite Hd, Hu.
Qed.

(** C6. The upload step. The record handed to the destination is the
    fetched one with its connection switched and its identifier and
    renditions set to [None]; when the destination rejects it,
    [upload_video] logs the code and the description of the error and
    returns [None]; when it accepts it, [upload_video] returns the same
    object, which now carries the identifier the destination assigned. *)
Theorem upload_video_clears_then_submits r s v :
  heap s !! r = Some v ->
  Video.id (submitted v) = None /\
  Video.renditions (submitted v) = None /\
  (forall w e,
     create_video (world s) (submitted v) = (w, inl e) ->
     exists s',
       upload_video (PRef r) s = (Ok PNone, s') /\
       log s' = log s ++ [(WARNING, "  Upload error: (" +:+ code e +:+ ") - "
                                    +:+ description e)] /\
       world s' = w /\ fs s' = fs s) /\
  (forall w new_id,
     create_video (world s) (submitted v) = (w, inr new_id) ->
     exists s',
       upload_video (PRef r) s = (Ok (PRef r), s') /\
       heap s' !! r = Some (Video.set_id (Some new_id) (submitted v)) /\
       log s' = log s /\ world s' = w /\ fs s' = fs s).
Proof.
  intros Hv. pose proof (upload_video_run r s v Hv) as Hrun.
  pose proof (lookup_lt_Some _ _ _ Hv) as Hlt.
  split; [reflexivity|]. split; [reflexivity|]. split.
  - intros w e Hc. rewrite Hc in Hrun. eexists. split; [exact Hrun|]. now repeat split.
  - intros w new_id Hc. rewrite Hc in Hrun. eexists. split; [exact Hrun|].
    split; [|now repeat split]. simpl. now apply list_lookup_insert_eq.
Qed.

(** C9. A rejected upload is not undone. When the destination rejects
    the record, [upload_video] returns [None] and the object the caller
    fetched stays as it was submitted: identifier and renditions [None],
    connection [NEWCONN]. The loop body of [process_videos_list] ends
    there, with its variable [v] bound to [None] and nothing restored. *)
Theorem upload_video_rejection_not_undone r s v w e :
  heap s !! r = Some v ->
  create_video (world s) (submitted v) = (w, inl e) ->
  exists s',
    upload_video (PRef r) s = (Ok PNone, s') /\
    heap s' !! r = Some (submitted v) /\
    Video.id (submitted v) = None /\
    Video.renditions (submitted v) = None /\
    Video.connection (submitted v) = NEWCONN /\
    forall csv oldId s0,
      download_video oldId s0 = (Ok (PRef r), s) ->
      process_video csv oldId s0 = (Ok tt, s').
Proof.
  intros Hv Hc. pose proof (upload_video_run r s v Hv) as Hrun.
  pose proof (lookup_lt_Some _ _ _ Hv) as Hlt.
  rewrite Hc in Hrun. eexists. split; [exact Hrun|].
  split; [simpl; now apply list_lookup_insert_eq|].
  repeat (split; [reflexivity|]).
  intros csv oldId s0 Hd. now apply (process_video_rejected csv oldId s0 s r).
Qed.

(** *** The batch *)

Lemma process_videos_list_missing fname s :
  fs s !! fname = None ->
  process_videos_list fname s
  = (Ok tt, set_log (log s ++ [(WARNING, "File not found! (" +:+ fname +:+ ")")]) s).
Proof.
  intros H. unfold process_videos_list. unfold_monad. now rewrite H.
Qed.

Lemma process_videos_list_guard fname s ws old nm :
  fs s !! fname = Some ws ->
  fs s !! csvfname_of fname = Some old ->
  g_name s = Some nm ->
  process_videos_list fname s
  = (Raise (SystemExit 1),
     set_log (log s ++ [(INFO, "Starting (" +:+ nm +:+ ")");
                        (CRITICAL, "CSV file already exists! (" +:+ csvfname_of fname
                                   +:+ ").  Exiting.")]) s).
Proof.
  intros Hin Hcsv Hnm. unfold process_videos_list. unfold_monad.
  rewrite Hin, Hnm. simpl. rewrite Hcsv.
  rewrite bool_decide_eq_true_2 by eauto. simpl.
  unfold set_log; simpl. now rewrite <- app_assoc.
Qed.

(** C8. A list path that names no file. [process_videos_list] logs a
    warning and returns; the loop over the arguments goes on with the
    remaining lists, and so does [main]. *)
Theorem process_videos_list_missing_file fname s :
  fs s !! fname = None ->
  process_videos_list fname s
  = (Ok tt, set_log (log s ++ [(WARNING, "File not found! (" +:+ fname +:+ ")")]) s) /\
  (forall rest,
     process_lists (fname :: rest) s
     = process_lists rest
         (set_log (log s ++ [(WARNING, "File not found! (" +:+ fname +:+ ")")])
            (set_g_name (Some fname) s))) /\
  (forall rest,
     main (fname :: rest) s
     = (process_lists rest;; logger_info "Done.")
         (set_log (log s ++ [(INFO, "Start");
                             (WARNING, "File not found! (" +:+ fname +:+ ")")])
            (set_g_name (Some fname) s))).
Proof.
  intros H. split; [now apply process_videos_list_missing|].
  assert (Hstep : forall s0, fs s0 !! fname = None ->
            (modify (set_g_name (Some fname));; process_videos_list fname) s0
            = (Ok tt, set_log (log s0 ++ [(WARNING, "File not found! (" +:+ fname +:+ ")")])
                        (set_g_name (Some fname) s0))).
  { intros s0 H0. unfold mbind, M_bind, bind, modify.
    now rewrite process_videos_list_missing. }
  assert (Hloop : forall rest s0, fs s0 !! fname = None ->
            process_lists (fname :: rest) s0
            = process_lists rest
                (set_log (log s0 ++ [(WARNING, "File not found! (" +:+ fname +:+ ")")])
                   (set_g_name (Some fname) s0))).
  { intros rest s0 H0. unfold process_lists.
    exact (for_each_ok
             (fun name => modify (set_g_name (Some name));; process_videos_list name)
             fname rest s0 _ (Hstep s0 H0)). }
  split; [intros rest; exact (Hloop rest s H)|].
  intros rest.
  change (main (fname :: rest) s)
    with ((process_lists (fname :: rest);; logger_info "Done.")
            (set_log (log s ++ [(INFO, "Start")]) s)).
  unfold mbind, M_bind, bind. rewrite Hloop by exact H.
  unfold set_log, set_g_name; simpl. now rewrite <- app_assoc.
Qed.

(** C3. An output file that already exists. When the list exists and
    the path derived for its CSV names a file, [process_videos_list]
    raises [SystemExit(1)] after two log lines: no file is opened,
    created or changed, so the existing CSV keeps its contents. Nothing
    catches the exception: [main] stops there, before the remaining
    lists, and the interpreter exits with status 1. *)
Theorem process_videos_list_existing_csv fname s ws old :
  fs s !! fname = Some ws ->
  fs s !! csvfname_of fname = Some old ->
  (forall nm,
     g_name s = Some nm ->
     exists s',
       process_videos_list fname s = (Raise (SystemExit 1), s') /\
       fs s' = fs s /\ opened s' = opened s /\ heap s' = heap s /\
       world s' = world s) /\
  (forall rest,
     exists s',
       main (fname :: rest) s = (Raise (SystemExit 1), s') /\
       exit_status (fst (main (fname :: rest) s)) = Some 1%Z /\
       fs s' = fs s /\ opened s' = opened s /\ heap s' = heap s /\
       world s' = world s /\
       fs s' !! csvfname_of fname = Some old).
Proof.
  intros Hin Hcsv. split.
  - intros nm Hnm. rewrite (process_videos_list_guard fname s ws old nm Hin Hcsv Hnm).
    eexists. split; [reflexivity|]. now repeat split.
  - intros rest.
    set (s1 := set_g_name (Some fname) (set_log (log s ++ [(INFO, "Start")]) s)).
    pose proof (process_videos_list_guard fname s1 ws old fname Hin Hcsv eq_refl) as Hg.
    assert (Hrun : main (fname :: rest) s
                   = (Raise (SystemExit 1),
                      set_log (log s1 ++ [(INFO, "Starting (" +:+ fname +:+ ")");
                                          (CRITICAL, "CSV file already exists! ("
                                                     +:+ csvfname_of fname
                                                     +:+ ").  Exiting.")]) s1)).
    { change (main (fname :: rest) s)
        with ((process_lists (fname :: rest);; logger_info "Done.")
                (set_log (log s ++ [(INFO, "Start")]) s)).
      unfold process_lists. unfold mbind at 1, M_bind at 1, bind at 1.
      rewrite (for_each_raise
                 (fun name => modify (set_g_name (Some name));; process_videos_list name)
                 fname rest (set_log (log s ++ [(INFO, "Start")]) s)
                 (set_log (log s1 ++ [(INFO, "Starting (" +:+ fname +:+ ")");
                                      (CRITICAL, "CSV file already exists! ("
                                                 +:+ csvfname_of fname
                                                 +:+ ").  Exiting.")]) s1)
                 (SystemExit 1)); [reflexivity|].
      unfold mbind, M_bind, bind, modify. fold s1. now rewrite Hg. }
    eexists. split; [exact Hrun|]. rewrite Hrun. now repeat split.
Qed.

(** *** What a call of [download_video] can do *)

Lemma first_largest_elem l b : first_largest l b -> In b l.
Proof. intros (pre & post & -> & _). apply in_or_app. right. now left. Qed.

Lemma best_rendition_url rs b :
  best_rendition rs = Some b -> exists u, Rendition.url b = Some u.
Proof.
  intros Hb. pose proof (best_rendition_spec rs) as Hspec. rewrite Hb in Hspec.
  apply first_largest_elem in Hspec. unfold candidates in Hspec.
  apply filter_In in Hspec as [_ He]. unfold eligible in He.
  destruct (Rendition.url b) as [u|]; [now exists u | discriminate].
Qed.

(** [download_video] returns [None], returns the object it allocated,
    or raises [NameError] on [url]; it never returns [False], and the
    only files it touches are under the download directory. *)
Lemma download_video_outcome id s :
  exists r s',
    download_video id s = (r, s') /\
    (r = Ok PNone \/ r = Ok (PRef (length (heap s))) \/ r = Raise (NameError "url")) /\
    forall p, (forall x, p <> DOWNLOAD_DIR +:+ x) -> fs s' !! p = fs s !! p.
Proof.
  destruct (find_video_by_id (world s) OLDCONN id) as [w [d|]] eqn:Hfind.
  2:{ rewrite (download_video_missing id s w Hfind).
      eexists _, _. split; [reflexivity|]. split; [now left|]. reflexivity. }
  destruct (best_rendition (vd_renditions d)) as [b|] eqn:Hb.
  2:{ rewrite (download_video_no_candidate id s w d Hfind Hb).
      eexists _, _. split; [reflexivity|]. split; [now left|]. reflexivity. }
  destruct (best_rendition_url _ _ Hb) as [u Hu].
  rewrite (download_video_started id s w d b u Hfind Hb Hu).
  rewrite local_fname_extension. unfold mbind, M_bind, bind.
  destruct (urlopen w u) as [w' [e|req]] eqn:Hopen.
  - rewrite (fetch_to_file_refused _ u _ (started id d b w s) w' e Hopen).
    eexists _, _. split; [destruct e; reflexivity|].
    split; [now right; right|]. reflexivity.
  - destruct (delivers req) eqn:Hd.
    + destruct (fetch_to_file_delivers (length (heap s)) u
                  (DOWNLOAD_DIR +:+ id +:+ extension (Rendition.video_codec b))
                  (started id d b w s) w' req Hopen Hd) as (ws & Hf & _).
      rewrite Hf. eexists _, _. split; [reflexivity|].
      split; [now right; left|].
      intros p Hp. simpl. apply lookup_insert_ne. intros Heq.
      now apply (Hp (id +:+ extension (Rendition.video_codec b))).
    + destruct (fetch_to_file_breaks (length (heap s)) u
                  (DOWNLOAD_DIR +:+ id +:+ extension (Rendition.video_codec b))
                  (started id d b w s) w' req Hopen Hd) as (e & ws & rest & Hf & _).
      rewrite Hf. eexists _, _. split; [destruct e; reflexivity|].
      split; [now right; right|].
      intros p Hp. simpl. apply lookup_insert_ne. intros Heq.
      now apply (Hp (id +:+ extension (Rendition.video_codec b))).
Qed.

Lemma upload_video_frame v s : fs (snd (upload_video v s)) = fs s.
Proof.
  destruct v as [| |r]; try reflexivity.
  unfold upload_video, Video_save. unfold_monad. simpl.
  destruct (_ !! r) as [x|]; [|reflexivity]. simpl.
  now destruct (create_video (world s) x) as [w [e|n]].
Qed.

(** *** The loop of [process_videos_list] *)

Lemma process_video_transfer csv oldId s :
  process_video csv oldId s =
    match transfer oldId s with
    | (Ok (Some new_id), s1) => fwrite csv (csv_row oldId new_id) s1
    | (Ok None, s1) => (Ok tt, s1)
    | (Raise e, s1) => (Raise e, s1)
    | (NoFuel, s1) => (NoFuel, s1)
    end.
Proof.
  unfold process_video, transfer, mbind, M_bind, bind.
  destruct (download_video oldId s) as [[[ | | r] | e | ] s1]; try reflexivity.
  destruct (upload_video (PRef r) s1) as [[[ | | r'] | e | ] s2]; try reflexivity.
  unfold getattr, setattr, record_old_new_ids, fwrite, modify, mret, M_ret, ret.
  now destruct (heap s2 !! r').
Qed.

Lemma transfer_frame oldId s p :
  (forall x, p <> DOWNLOAD_DIR +:+ x) ->
  fs (snd (transfer oldId s)) !! p = fs s !! p.
Proof.
  intros Hp.
  destruct (download_video_outcome oldId s) as (r & s1 & Hrun & Hcases & Hframe).
  unfold transfer, mbind, M_bind, bind. rewrite Hrun.
  destruct Hcases as [-> | [-> | ->]]; [simpl; now apply Hframe | | simpl; now apply Hframe].
  pose proof (upload_video_frame (PRef (length (heap s))) s1) as Hup.
  destruct (upload_video (PRef (length (heap s))) s1) as [[[ | | r'] | e | ] s2];
    simpl in Hup; try (simpl; rewrite Hup; now apply Hframe).
  unfold getattr, setattr, modify, mret, M_ret, ret.
  destruct (heap s2 !! r'); simpl; rewrite Hup; now apply Hframe.
Qed.

Lemma csv_not_download fname x : csvfname_of fname <> DOWNLOAD_DIR +:+ x.
Proof.
  unfold csvfname_of, DOWNLOAD_DIR. rewrite !append_cons. discriminate.
Qed.

(** Whatever the loop does, the CSV file grows by the rows of the
    identifiers that migrated, in their order; and the loop ends
    normally exactly when no identifier makes its body raise. *)
Lemma for_each_rows csv :
  (forall x, csv <> DOWNLOAD_DIR +:+ x) ->
  forall ids s ws,
    fs s !! csv = Some ws ->
    exists r s',
      for_each (process_video csv) ids s = (r, s') /\
      fs s' !! csv = Some (ws ++ map (uncurry csv_row) (migrated csv ids s)) /\
      (completes csv ids s = true <-> r = Ok tt).
Proof.
  intros Hcsv ids. induction ids as [|oldId ids IH]; intros s ws Hws.
  - exists (Ok tt), s. simpl. rewrite app_nil_r. now repeat split.
  - pose proof (transfer_frame oldId s csv Hcsv) as Hframe.
    pose proof (process_video_transfer csv oldId s) as Hpv.
    simpl. unfold mbind, M_bind, bind. rewrite Hpv.
    destruct (transfer oldId s) as [[[new_id | ] | e | ] s1]; simpl in Hframe |- *.
    + destruct (IH (set_fs (alter (fun ws => ws ++ [csv_row oldId new_id]) csv (fs s1)) s1)
                  (ws ++ [csv_row oldId new_id])) as (r & s' & Hrun & Hrows & Hok).
      { simpl. now rewrite lookup_alter_eq, Hframe, Hws. }
      exists r, s'. split; [exact Hrun|]. split; [|exact Hok].
      rewrite Hrows. now rewrite <- app_assoc.
    + destruct (IH s1 ws) as (r & s' & Hrun & Hrows & Hok); [now rewrite Hframe|].
      exists r, s'. split; [exact Hrun|]. split; [exact Hrows | exact Hok].
    + exists (Raise e), s1. rewrite app_nil_r, Hframe. now repeat split.
    + exists NoFuel, s1. rewrite app_nil_r, Hframe. now repeat split.
Qed.

Lemma process_videos_list_run fname s ws nm :
  fs s !! fname = Some ws ->
  g_name s = Some nm ->
  fs s !! csvfname_of fname = None ->
  process_videos_list fname s
  = (for_each (process_video (csvfname_of fname))
       (map Str.strip (Str.readlines (contents ws)));;
     fclose (csvfname_of fname)) (csv_opened (csvfname_of fname) nm s).
Proof.
  intros Hin Hnm Hcsv. unfold process_videos_list. unfold_monad.
  rewrite Hin, Hnm. simpl. rewrite Hcsv.
  rewrite bool_decide_eq_false_2 by (intros [? ?]; discriminate). simpl.
  unfold csv_opened, set_fs, set_log, set_opened. simpl.
  rewrite alter_insert_eq, <- app_assoc. reflexivity.
Qed.

(** X1. Mapping file of a list. When the list exists and its CSV does not,
    [process_videos_list] leaves in the CSV the header followed by one
    row per identifier that migrated, in the order of the lines of the
    list, each stripped; an identifier for which [download_video] or
    [upload_video] returned [None] adds nothing. When no identifier
    makes the loop body raise, the function returns and the CSV is
    closed. *)
Theorem mapping_file_rows fname s ws nm :
  fs s !! fname = Some ws ->
  g_name s = Some nm ->
  fs s !! csvfname_of fname = None ->
  exists r s',
    process_videos_list fname s = (r, s') /\
    fs s' !! csvfname_of fname
    = Some (csv_header
              :: map (uncurry csv_row)
                   (migrated (csvfname_of fname)
                      (map Str.strip (Str.readlines (contents ws)))
                      (csv_opened (csvfname_of fname) nm s))) /\
    (completes (csvfname_of fname) (map Str.strip (Str.readlines (contents ws)))
       (csv_opened (csvfname_of fname) nm s) = true ->
     r = Ok tt /\ csvfname_of fname ∉ opened s').
Proof.
  intros Hin Hnm Hcsv. rewrite (process_videos_list_run fname s ws nm Hin Hnm Hcsv).
  destruct (for_each_rows (csvfname_of fname) (csv_not_download fname)
              (map Str.strip (Str.readlines (contents ws)))
              (csv_opened (csvfname_of fname) nm s) [csv_header])
    as (r & s' & Hrun & Hrows & Hok); [apply lookup_insert_eq|].
  unfold mbind, M_bind, bind. rewrite Hrun.
  destruct r as [[]|e|].
  - eexists _, _. split; [reflexivity|]. split; [exact Hrows|].
    intros _. split; [reflexivity|]. simpl.
    intros H. apply elem_of_difference in H as [_ H]. apply H.
    now apply elem_of_singleton.
  - eexists _, _. split; [reflexivity|]. split; [exact Hrows|].
    intros Hc. apply Hok in Hc. discriminate.
  - eexists _, _. split; [reflexivity|]. split; [exact Hrows|].
    intros Hc. apply Hok in Hc. discriminate.
Qed.

(** X2. A list none of whose identifiers migrates and none of which makes
    the loop body raise, the empty list among them: the CSV is created,
    holds the header only and is closed. *)
Theorem barren_list_header_only fname s ws nm :
  fs s !! fname = Some ws ->
  g_name s = Some nm ->
  fs s !! csvfname_of fname = None ->
  migrated (csvfname_of fname) (map Str.strip (Str.readlines (contents ws)))
    (csv_opened (csvfname_of fname) nm s) = [] ->
  completes (csvfname_of fname) (map Str.strip (Str.readlines (contents ws)))
    (csv_opened (csvfname_of fname) nm s) = true ->
  exists s',
    process_videos_list fname s = (Ok tt, s') /\
    fs s' !! csvfname_of fname = Some [csv_header] /\
    csvfname_of fname ∉ opened s'.
Proof.
  intros Hin Hnm Hcsv Hnone Hc.
  rewrite (process_videos_list_run fname s ws nm Hin Hnm Hcsv).
  destruct (for_each_rows (csvfname_of fname) (csv_not_download fname)
              (map Str.strip (Str.readlines (contents ws)))
              (csv_opened (csvfname_of fname) nm s) [csv_header])
    as (r & s' & Hrun & Hrows & Hok); [apply lookup_insert_eq|].
  apply Hok in Hc. subst r. rewrite Hnone in Hrows.
  unfold mbind, M_bind, bind. rewrite Hrun.
  eexists. split; [reflexivity|]. split; [exact Hrows|]. simpl.
  intros H. apply elem_of_difference in H as [_ H]. apply H.
  now apply elem_of_singleton.
Qed.

(** X3. [download_video] never returns [False]. The two [return False]
    of its handlers are not reached, since reading [url] raises first:
    whenever the function returns, its value is [None] or the object it
    built at line 106. *)
Theorem download_video_never_false id s :
  fst (download_video id s) <> Ok PFalse /\
  forall v, fst (download_video id s) = Ok v ->
            v = PNone \/ v = PRef (length (heap s)).
Proof.
  destruct (download_video_outcome id s) as (r & s' & Hrun & Hcases & _).
  rewrite Hrun. simpl.
  destruct Hcases as [-> | [-> | ->]]; (split; [discriminate|]); intros v Hv.
  - injection Hv as <-. now left.
  - injection Hv as <-. now right.
  - discriminate.
Qed.

End Properties.

(** * Further properties *)

(** ** Selection over a list in pieces, and in another order *)

Lemma fold_select_prefer l : forall a,
  fold_left select_step l (Some a) = prefer (Some a) (fold_left select_step l None).
Proof.
  induction l as [|r l IH]; intros a; [reflexivity|].
  change (fold_left select_step l (select_step (Some a) r)
          = prefer (Some a) (fold_left select_step l (select_step None r))).
  unfold select_step at 2 4. destruct (eligible r); [|apply IH].
  rewrite (IH r).
  destruct (Z.gtb_spec (Rendition.size r) (Rendition.size a)) as [Hra|Hra];
    rewrite IH; destruct (fold_left select_step l None) as [b|]; unfold prefer;
    repeat match goal with
           | |- context [(?x >? ?y)%Z] => destruct (Z.gtb_spec x y)
           end; try reflexivity; lia.
Qed.

(** X4. The choice made over a list in two pieces: it is the choice of
    the first piece, unless that of the second piece is strictly larger
    (or the first piece has no candidate). *)
Theorem best_rendition_app l1 l2 :
  best_rendition (l1 ++ l2) = prefer (best_rendition l1) (best_rendition l2).
Proof.
  unfold best_rendition. rewrite fold_left_app.
  destruct (fold_left select_step l1 None) as [a|]; [apply fold_select_prefer|].
  reflexivity.
Qed.

Lemma best_rendition_largest l b :
  best_rendition l = Some b ->
  In b l /\ eligible b = true /\
  forall r, In r l -> eligible r = true -> (Rendition.size r <= Rendition.size b)%Z.
Proof.
  intros Hb. pose proof (best_rendition_spec l) as Hspec. rewrite Hb in Hspec.
  destruct Hspec as (pre & post & Heq & Hpre & Hpost).
  assert (Hin : In b (candidates l)) by (rewrite Heq; apply in_or_app; right; now left).
  unfold candidates in Hin. apply filter_In in Hin as [Hin He].
  split; [exact Hin|]. split; [exact He|].
  intros r Hr Her.
  assert (Hc : In r (candidates l)) by (apply filter_In; now split).
  rewrite Heq in Hc. apply in_app_or in Hc as [Hc|[<-|Hc]].
  - rewrite Forall_forall in Hpre. apply list_elem_of_In in Hc.
    specialize (Hpre r Hc). simpl in Hpre. lia.
  - lia.
  - rewrite Forall_forall in Hpost. apply list_elem_of_In in Hc.
    exact (Hpost r Hc).
Qed.

Lemma best_rendition_none l :
  best_rendition l = None -> forall r, In r l -> eligible r = false.
Proof.
  intros Hb r Hr. pose proof (best_rendition_spec l) as Hspec. rewrite Hb in Hspec.
  destruct (eligible r) eqn:He; [|reflexivity].
  assert (Hc : In r (candidates l)) by (apply filter_In; now split).
  rewrite Hspec in Hc. destruct Hc.
Qed.

(** X5. The order of the renditions decides only between renditions of
    the same size: the size of the rendition chosen is the same for any
    two orders of the same renditions, and one order has a choice
    exactly when the other has. *)
Theorem best_rendition_size_permutation l l' :
  Permutation l l' ->
  Rendition.size <$> best_rendition l = Rendition.size <$> best_rendition l'.
Proof.
  intros Hp.
  assert (Hp' : Permutation l' l) by now symmetry.
  destruct (best_rendition l) as [b|] eqn:Hb, (best_rendition l') as [b'|] eqn:Hb'; simpl.
  - apply best_rendition_largest in Hb as (Hin & He & Hmax).
    apply best_rendition_largest in Hb' as (Hin' & He' & Hmax').
    f_equal. apply Z.le_antisymm.
    + apply Hmax'; [|exact He]. now apply (Permutation_in _ Hp).
    + apply Hmax; [|exact He']. now apply (Permutation_in _ Hp').
  - apply best_rendition_largest in Hb as (Hin & He & _).
    rewrite (best_rendition_none l' Hb' b) in He; [discriminate|].
    now apply (Permutation_in _ Hp).
  - apply best_rendition_largest in Hb' as (Hin' & He' & _).
    rewrite (best_rendition_none l Hb b') in He'; [discriminate|].
    now apply (Permutation_in _ Hp').
  - reflexivity.
Qed.

(** ** The identifiers read from a list *)

Lemma lstrip_starts s : starts_with_space (Str.lstrip s) = false.
Proof.
  induction s as [|c s IH]; [reflexivity|]. simpl.
  destruct (Str.is_space c) eqn:Hc; [exact IH|]. simpl. exact Hc.
Qed.

Lemma rstrip_starts s :
  starts_with_space s = false -> starts_with_space (Str.rstrip s) = false.
Proof.
  destruct s as [|c s]; [reflexivity|]. simpl. intros Hc.
  destruct (Str.rstrip s); [rewrite Hc|]; simpl; assumption.
Qed.

Lemma rstrip_ends s : ends_with_space (Str.rstrip s) = false.
Proof.
  induction s as [|c s IH]; [reflexivity|]. simpl.
  destruct (Str.rstrip s) as [|c' r] eqn:Hr.
  - destruct (Str.is_space c) eqn:Hc; [reflexivity|]. simpl. exact Hc.
  - exact IH.
Qed.

Lemma rstrip_snoc_space s c :
  Str.is_space c = true -> Str.rstrip (s +:+ String c "") = Str.rstrip s.
Proof.
  intros Hc. induction s as [|a s IH].
  - simpl. now rewrite Hc.
  - rewrite append_cons. simpl. now rewrite IH.
Qed.

Lemma has_newline_lstrip s : has_newline s = false -> has_newline (Str.lstrip s) = false.
Proof.
  induction s as [|c s IH]; [reflexivity|]. simpl. intros H.
  apply orb_false_iff in H as [Hc Hs].
  destruct (Str.is_space c); [now apply IH|]. simpl. now rewrite Hc, Hs.
Qed.

Lemma has_newline_rstrip s : has_newline s = false -> has_newline (Str.rstrip s) = false.
Proof.
  induction s as [|c s IH]; [reflexivity|]. simpl. intros H.
  apply orb_false_iff in H as [Hc Hs]. specialize (IH Hs).
  destruct (Str.rstrip s) as [|c' r].
  - destruct (Str.is_space c); [reflexivity|]. simpl. now rewrite Hc.
  - simpl in IH |- *. now rewrite Hc, IH.
Qed.

Lemma newline_is_space c : Str.is_newline c = true -> Str.is_space c = true.
Proof.
  unfold Str.is_newline, Str.is_space. intros H. apply Nat.eqb_eq in H. now rewrite H.
Qed.

Lemma readlines_lines s : forall l, In l (Str.readlines s) -> is_line l.
Proof.
  induction s as [|c s IH]; intros l Hl; [destruct Hl|].
  simpl in Hl. destruct (Str.is_newline c) eqn:Hc.
  - destruct Hl as [<-|Hl]; [|now apply IH].
    exists "". split; [reflexivity|]. right. now exists c.
  - destruct (Str.readlines s) as [|l0 ls] eqn:Hr.
    + destruct Hl as [<-|[]]. exists (String c ""). split; [simpl; now rewrite Hc|].
      now left.
    + destruct Hl as [<-|Hl]; [|apply IH; now right].
      destruct (IH l0 (or_introl eq_refl)) as (b & Hb & [->|(c' & Hc' & ->)]).
      * exists (String c b). split; [simpl; now rewrite Hc, Hb|]. now left.
      * exists (String c b). split; [simpl; now rewrite Hc, Hb|]. right. now exists c'.
Qed.

Lemma lstrip_snoc_space b c :
  Str.is_space c = true ->
  Str.lstrip (b +:+ String c "") = "" \/
  Str.lstrip (b +:+ String c "") = Str.lstrip b +:+ String c "".
Proof.
  intros Hc. induction b as [|a b IH].
  - left. simpl. now rewrite Hc.
  - rewrite append_cons. simpl. destruct (Str.is_space a); [exact IH|].
    right. now rewrite append_cons.
Qed.

Lemma strip_line l : is_line l -> has_newline (Str.strip l) = false.
Proof.
  intros (b & Hb & [->|(c & Hc & ->)]); unfold Str.strip.
  - now apply has_newline_rstrip, has_newline_lstrip.
  - apply newline_is_space in Hc.
    destruct (lstrip_snoc_space b c Hc) as [-> | ->]; [reflexivity|].
    rewrite rstrip_snoc_space by assumption.
    now apply has_newline_rstrip, has_newline_lstrip.
Qed.

(** X11. The identifiers of a list. Each identifier handed to
    [download_video] is a line without its surrounding whitespace: it
    holds no line feed and neither starts nor ends with a whitespace
    character. *)
Theorem identifiers_trimmed content id :
  In id (identifiers content) ->
  has_newline id = false /\
  starts_with_space id = false /\
  ends_with_space id = false.
Proof.
  unfold identifiers. intros Hin. apply in_map_iff in Hin as (l & <- & Hl).
  split; [apply strip_line; now apply (readlines_lines content)|].
  unfold Str.strip. split; [apply rstrip_starts, lstrip_starts | apply rstrip_ends].
Qed.

Lemma readlines_snoc_nonempty a c :
  Str.is_newline c = true -> Str.readlines (a +:+ String c "") <> [].
Proof.
  intros Hc. destruct a as [|x a].
  - simpl. now rewrite Hc.
  - rewrite append_cons. simpl. destruct (Str.is_newline x); [discriminate|].
    destruct (Str.readlines _); discriminate.
Qed.

Lemma readlines_app a b :
  Str.readlines (a +:+ nl +:+ b) = Str.readlines (a +:+ nl) ++ Str.readlines b.
Proof.
  induction a as [|c a IH]; [reflexivity|].
  rewrite !append_cons. simpl. destruct (Str.is_newline c).
  - now rewrite IH.
  - rewrite IH. pose proof (readlines_snoc_nonempty a _ (eq_refl : Str.is_newline (ascii_of_nat 10) = true)) as Hne.
    change (String (ascii_of_nat 10) "") with nl in Hne.
    now destruct (Str.readlines (a +:+ nl)).
Qed.

(** ** The rows of the mapping file *)

Lemma append_cancel_r t : forall s s', s +:+ t = s' +:+ t -> s = s'.
Proof.
  induction s as [|c s IH]; intros [|c' s'] H.
  - reflexivity.
  - apply (f_equal String.length) in H.
    rewrite append_empty_l, append_cons in H. simpl in H.
    rewrite length_append' in H. lia.
  - apply (f_equal String.length) in H.
    rewrite append_empty_l, append_cons in H. simpl in H.
    rewrite length_append' in H. lia.
  - rewrite !append_cons in H. injection H as -> H. f_equal. now apply IH.
Qed.

Lemma split_at_quote r r' : forall o o',
  has_dq o = false -> has_dq o' = false ->
  o +:+ dq +:+ r = o' +:+ dq +:+ r' -> o = o' /\ r = r'.
Proof.
  induction o as [|c o IH]; intros [|c' o'] Ho Ho' H.
  - split; [reflexivity|]. now injection H.
  - exfalso. rewrite append_cons in H. injection H as <- _.
    simpl in Ho'. discriminate.
  - exfalso. rewrite append_cons in H. injection H as -> _.
    simpl in Ho. discriminate.
  - rewrite !append_cons in H. injection H as -> H.
    simpl in Ho, Ho'. apply orb_false_iff in Ho as [_ Ho], Ho' as [_ Ho'].
    destruct (IH o' Ho Ho' H) as [-> ->]. now split.
Qed.

(** X13. Reading a row back. A row determines the pair it was written
    for as long as the old identifiers hold no double quote; quotes are
    not escaped, so with one in an identifier two different pairs can
    give the same row. *)
Theorem csv_row_unambiguous :
  (forall oldid newid oldid' newid',
     has_dq oldid = false -> has_dq oldid' = false ->
     csv_row oldid newid = csv_row oldid' newid' ->
     oldid = oldid' /\ newid = newid') /\
  (forall a b c,
     csv_row (a +:+ dq +:+ "," +:+ dq +:+ b) c
     = csv_row a (b +:+ dq +:+ "," +:+ dq +:+ c)).
Proof.
  split.
  - intros o n o' n' Ho Ho' H. unfold csv_row in H.
    injection H as H.
    destruct (split_at_quote _ _ o o' Ho Ho' H) as [-> H'].
    split; [reflexivity|]. injection H' as H'.
    now apply (append_cancel_r (dq +:+ nl)).
  - intros a b c. unfold csv_row. now rewrite !append_assoc'.
Qed.

Section Coverage.
Context `{P : Platform}.
#[local] Existing Instances M_ret M_bind.

(** ** What every run keeps *)

Lemma keeps_files_refl s : keeps_files s s.
Proof. now intros p. Qed.

Lemma keeps_files_trans s1 s2 s3 :
  keeps_files s1 s2 -> keeps_files s2 s3 -> keeps_files s1 s3.
Proof. intros H12 H23 p Hp. now apply H23, H12. Qed.

Lemma keeps_files_eq s s' : fs s' = fs s -> keeps_files s s'.
Proof. intros H p. now rewrite H. Qed.

Lemma keeps_files_insert s s' p ws : fs s' = <[p := ws]> (fs s) -> keeps_files s s'.
Proof.
  intros H q Hq. rewrite H. destruct (decide (p = q)) as [->|Hne].
  - rewrite lookup_insert_eq. eauto.
  - now rewrite lookup_insert_ne.
Qed.

Lemma is_Some_alter (m : gmap string (list string)) f p q :
  is_Some (m !! q) -> is_Some (alter f p m !! q).
Proof.
  intros Hq. destruct (decide (p = q)) as [->|Hne].
  - rewrite lookup_alter_eq. destruct Hq as [x ->]. simpl. eauto.
  - now rewrite lookup_alter_ne.
Qed.

(** [download_video] in full: its result, the only file it may write,
    and the object behind the reference it returns. *)
Lemma download_video_result id s :
  exists r s',
    download_video id s = (r, s') /\
    (fs s' = fs s \/ exists x ws, fs s' = <[DOWNLOAD_DIR +:+ x := ws]> (fs s)) /\
    g_name s' = g_name s /\
    (r = Ok PNone \/
     (r = Ok (PRef (length (heap s))) /\ is_Some (heap s' !! length (heap s))) \/
     r = Raise (NameError "url")).
Proof.
  destruct (find_video_by_id (world s) OLDCONN id) as [w [d|]] eqn:Hfind.
  2:{ rewrite (download_video_missing id s w Hfind).
      eexists _, _. split; [reflexivity|]. split; [now left|]. split; [reflexivity|]. now left. }
  destruct (best_rendition (vd_renditions d)) as [b|] eqn:Hb.
  2:{ rewrite (download_video_no_candidate id s w d Hfind Hb).
      eexists _, _. split; [reflexivity|]. split; [now left|]. split; [reflexivity|]. now left. }
  destruct (best_rendition_url _ _ Hb) as [u Hu].
  rewrite (download_video_started id s w d b u Hfind Hb Hu).
  rewrite local_fname_extension. unfold mbind, M_bind, bind.
  destruct (urlopen w u) as [w' [e|req]] eqn:Hopen.
  - rewrite (fetch_to_file_refused _ u _ (started id d b w s) w' e Hopen).
    eexists _, _. split; [destruct e; reflexivity|].
    split; [now left|]. split; [reflexivity|]. now right; right.
  - destruct (delivers req) eqn:Hd.
    + destruct (fetch_to_file_delivers (length (heap s)) u
                  (DOWNLOAD_DIR +:+ id +:+ extension (Rendition.video_codec b))
                  (started id d b w s) w' req Hopen Hd) as (ws & Hf & _).
      rewrite Hf. eexists _, _. split; [reflexivity|].
      split; [right; now eexists _, ws|]. split; [reflexivity|].
      right; left. split; [reflexivity|]. simpl.
      rewrite alter_last, lookup_last. eauto.
    + destruct (fetch_to_file_breaks (length (heap s)) u
                  (DOWNLOAD_DIR +:+ id +:+ extension (Rendition.video_codec b))
                  (started id d b w s) w' req Hopen Hd) as (e & ws & rest & Hf & _).
      rewrite Hf. eexists _, _. split; [destruct e; reflexivity|].
      split; [right; now eexists _, ws|]. split; [reflexivity|]. now right; right.
Qed.

(** The loop body in full. *)
Lemma process_video_result csv id s :
  exists r s',
    process_video csv id s = (r, s') /\
    (r = Ok tt \/ r = Raise (NameError "url")) /\
    keeps_files s s' /\
    g_name s' = g_name s.
Proof.
  destruct (download_video_result id s) as (r & s1 & Hrun & Hfs & Hg & Hr).
  assert (Hk : keeps_files s s1).
  { destruct Hfs as [Hfs|(x & ws & Hfs)];
      [now apply keeps_files_eq | now apply (keeps_files_insert _ _ _ _ Hfs)]. }
  unfold process_video, mbind, M_bind, bind. rewrite Hrun.
  destruct Hr as [-> | [[-> [v Hv]] | ->]].
  - eexists _, _. split; [reflexivity|]. split; [now left|]. now split.
  - pose proof (lookup_lt_Some _ _ _ Hv) as Hlt.
    rewrite (upload_video_run _ s1 v Hv).
    destruct (create_video (world s1) (submitted v)) as [w [e|new_id]].
    + eexists _, _. split; [reflexivity|]. split; [now left|]. now split.
    + unfold getattr at 1. simpl heap.
      rewrite list_lookup_insert_eq by assumption.
      unfold record_old_new_ids, fwrite, setattr, modify.
      eexists _, _. split; [reflexivity|]. split; [now left|].
      split; [|exact Hg].
      intros q Hq. simpl. apply is_Some_alter. now apply Hk.
  - eexists _, _. split; [reflexivity|]. split; [now right|]. now split.
Qed.

Lemma for_each_result csv ids : forall s,
  exists r s',
    for_each (process_video csv) ids s = (r, s') /\
    (r = Ok tt \/ r = Raise (NameError "url")) /\
    keeps_files s s' /\
    g_name s' = g_name s.
Proof.
  induction ids as [|id ids IH]; intros s.
  - exists (Ok tt), s. split; [reflexivity|]. split; [now left|].
    split; [apply keeps_files_refl | reflexivity].
  - destruct (process_video_result csv id s) as (r1 & s1 & Hrun1 & Hr1 & Hk1 & Hg1).
    simpl. unfold mbind, M_bind, bind. rewrite Hrun1.
    destruct Hr1 as [-> | ->].
    + destruct (IH s1) as (r & s' & Hrun & Hr & Hk & Hg).
      exists r, s'. split; [exact Hrun|]. split; [exact Hr|].
      split; [now apply (keeps_files_trans s s1 s') | congruence].
    + eexists _, _. split; [reflexivity|]. split; [now right|]. now split.
Qed.

(** [process_videos_list] in full, when the global [name] is bound. *)
Lemma process_videos_list_result fname s nm :
  g_name s = Some nm ->
  exists r s',
    process_videos_list fname s = (r, s') /\
    ends_known r /\
    keeps_files s s' /\
    g_name s' = g_name s /\
    (is_Some (fs s !! fname) -> is_Some (fs s' !! csvfname_of fname)) /\
    (r = Raise (SystemExit 1) -> fs s' = fs s).
Proof.
  intros Hnm. destruct (fs s !! fname) as [ws|] eqn:Hin.
  2:{ rewrite (process_videos_list_missing fname s Hin).
      eexists _, _. split; [reflexivity|]. split; [now left|].
      split; [apply keeps_files_eq; reflexivity|]. split; [reflexivity|].
      split; [intros [? ?]; discriminate | reflexivity]. }
  destruct (fs s !! csvfname_of fname) as [old|] eqn:Hcsv.
  { rewrite (process_videos_list_guard fname s ws old nm Hin Hcsv Hnm).
    eexists _, _. split; [reflexivity|]. split; [now right; left|].
    split; [apply keeps_files_eq; reflexivity|]. split; [reflexivity|].
    split; [|reflexivity].
    intros _. simpl. rewrite Hcsv. eauto. }
  rewrite (process_videos_list_run fname s ws nm Hin Hnm Hcsv).
  destruct (for_each_result (csvfname_of fname)
              (map Str.strip (Str.readlines (contents ws)))
              (csv_opened (csvfname_of fname) nm s))
    as (r & s' & Hrun & Hr & Hk & Hg).
  assert (Hk0 : keeps_files s (csv_opened (csvfname_of fname) nm s)).
  { now apply (keeps_files_insert _ _ (csvfname_of fname) [csv_header]). }
  assert (Hcsv' : is_Some (fs s' !! csvfname_of fname)).
  { apply Hk. simpl. rewrite lookup_insert_eq. eauto. }
  unfold mbind, M_bind, bind. rewrite Hrun.
  destruct Hr as [-> | ->].
  - eexists _, _. split; [reflexivity|]. split; [now left|].
    split; [now apply (keeps_files_trans s _ _ Hk0)|].
    split; [exact Hg|]. split; [now intros _ | discriminate].
  - eexists _, _. split; [reflexivity|]. split; [now right; right|].
    split; [now apply (keeps_files_trans s _ _ Hk0)|].
    split; [exact Hg|]. split; [now intros _ | discriminate].
Qed.

(** The loop over the arguments in full. *)
Lemma process_lists_result argv : forall s,
  exists r s',
    process_lists argv s = (r, s') /\
    ends_known r /\
    keeps_files s s' /\
    (forall fname rest, argv = fname :: rest -> is_Some (fs s !! fname) ->
                        is_Some (fs s' !! csvfname_of fname)).
Proof.
  induction argv as [|fname rest IH]; intros s.
  - exists (Ok tt), s. split; [reflexivity|]. split; [now left|].
    split; [apply keeps_files_refl|]. discriminate.
  - destruct (process_videos_list_result fname (set_g_name (Some fname) s) fname eq_refl)
      as (r1 & s1 & Hrun1 & Hr1 & Hk1 & _ & Hcsv1 & _).
    assert (Hstep : (modify (set_g_name (Some fname));; process_videos_list fname) s
                    = (r1, s1)).
    { unfold mbind, M_bind, bind, modify. now rewrite Hrun1. }
    unfold process_lists. simpl. unfold mbind at 1, M_bind at 1, bind at 1.
    rewrite Hstep. fold (process_lists rest).
    destruct Hr1 as [-> | [-> | ->]].
    + destruct (IH s1) as (r & s' & Hrun & Hr & Hk & _).
      exists r, s'. split; [exact Hrun|]. split; [exact Hr|].
      split; [now apply (keeps_files_trans s s1 s')|].
      intros f r0 [= <- <-] Hin. apply Hk. now apply Hcsv1.
    + eexists _, _. split; [reflexivity|]. split; [now right; left|].
      split; [exact Hk1|].
      intros f r0 [= <- <-] Hin. now apply Hcsv1.
    + eexists _, _. split; [reflexivity|]. split; [now right; right|].
      split; [exact Hk1|].
      intros f r0 [= <- <-] Hin. now apply Hcsv1.
Qed.

(** The whole run in full. *)
Lemma main_result argv s :
  exists r s',
    main argv s = (r, s') /\
    ends_known r /\
    keeps_files s s' /\
    (forall fname rest, argv = fname :: rest -> is_Some (fs s !! fname) ->
                        is_Some (fs s' !! csvfname_of fname)).
Proof.
  destruct (process_lists_result argv (set_log (log s ++ [(INFO, "Start")]) s))
    as (r & s' & Hrun & Hr & Hk & Hcsv).
  change (main argv s)
    with ((process_lists argv;; logger_info "Done.")
            (set_log (log s ++ [(INFO, "Start")]) s)).
  unfold mbind, M_bind, bind. rewrite Hrun.
  destruct Hr as [-> | [-> | ->]].
  - eexists _, _. split; [reflexivity|]. split; [now left|]. now repeat split.
  - eexists _, _. split; [reflexivity|]. split; [now right; left|]. now repeat split.
  - eexists _, _. split; [reflexivity|]. split; [now right; right|]. now repeat split.
Qed.

Lemma main_guard fname rest s ws old :
  fs s !! fname = Some ws ->
  fs s !! csvfname_of fname = Some old ->
  exists s', main (fname :: rest) s = (Raise (SystemExit 1), s') /\ fs s' = fs s.
Proof.
  intros Hin Hcsv.
  set (s1 := set_g_name (Some fname) (set_log (log s ++ [(INFO, "Start")]) s)).
  pose proof (process_videos_list_guard fname s1 ws old fname Hin Hcsv eq_refl) as Hg.
  change (main (fname :: rest) s)
    with ((process_lists (fname :: rest);; logger_info "Done.")
            (set_log (log s ++ [(INFO, "Start")]) s)).
  unfold process_lists. unfold mbind at 1, M_bind at 1, bind at 1.
  rewrite (for_each_raise
             (fun name => modify (set_g_name (Some name));; process_videos_list name)
             fname rest (set_log (log s ++ [(INFO, "Start")]) s)
             (set_log (log s1 ++ [(INFO, "Starting (" +:+ fname +:+ ")");
                                  (CRITICAL, "CSV file already exists! ("
                                             +:+ csvfname_of fname
                                             +:+ ").  Exiting.")]) s1)
             (SystemExit 1)).
  - eexists. split; reflexivity.
  - unfold mbind, M_bind, bind, modify. fold s1. now rewrite Hg.
Qed.

(** X6. How a run can end. Whatever the lists and the platform, the
    module ends normally, on [SystemExit(1)] raised by the guard of an
    existing CSV, or on the [NameError] of the handlers of
    [download_video]; the copy loop always ends, and no other exception
    of the script is reached. The exit status is 0 in the first case and
    1 in the other two. *)
Theorem main_ends_known argv s :
  ends_known (fst (main argv s)) /\
  (exit_status (fst (main argv s)) = Some 0%Z <-> fst (main argv s) = Ok tt) /\
  (exit_status (fst (main argv s)) = Some 1%Z <-> fst (main argv s) <> Ok tt).
Proof.
  destruct (main_result argv s) as (r & s' & Hrun & Hr & _).
  rewrite Hrun. simpl. split; [exact Hr|].
  destruct Hr as [-> | [-> | ->]]; simpl; repeat split; intros; congruence.
Qed.

(** ** The files a run leaves open *)

Lemma closed_subset (p : string) (X : gset string) : ({[p]} ∪ X) ∖ {[p]} ⊆ X.
Proof.
  intros q Hq. apply elem_of_difference in Hq as [Hq Hne].
  apply elem_of_union in Hq as [Hq|Hq]; [contradiction | exact Hq].
Qed.

Lemma closed_keeps (p q : string) (X : gset string) :
  q <> p -> q ∈ X -> q ∈ ({[p]} ∪ X) ∖ {[p]}.
Proof.
  intros Hne Hq. apply elem_of_difference. split; [apply elem_of_union; now right|].
  intros H. apply elem_of_singleton in H. contradiction.
Qed.

(** [download_video] leaves no file open that was not, and closes
    nothing outside the download directory. *)
Lemma download_video_handles id s :
  opened (snd (download_video id s)) ⊆ opened s /\
  forall p, (forall x, p <> DOWNLOAD_DIR +:+ x) -> p ∈ opened s ->
            p ∈ opened (snd (download_video id s)).
Proof.
  destruct (find_video_by_id (world s) OLDCONN id) as [w [d|]] eqn:Hfind.
  2:{ rewrite (download_video_missing id s w Hfind). simpl. split; [reflexivity | auto]. }
  destruct (best_rendition (vd_renditions d)) as [b|] eqn:Hb.
  2:{ rewrite (download_video_no_candidate id s w d Hfind Hb). simpl.
      split; [reflexivity | auto]. }
  destruct (best_rendition_url _ _ Hb) as [u Hu].
  rewrite (download_video_started id s w d b u Hfind Hb Hu).
  pose proof (local_fname_extension id (Rendition.video_codec b)) as Hx.
  set (x := id +:+ extension (Rendition.video_codec b)) in Hx.
  unfold mbind, M_bind, bind.
  destruct (urlopen w u) as [w' [e|req]] eqn:Hopen.
  - rewrite (fetch_to_file_refused _ u _ (started id d b w s) w' e Hopen).
    destruct e; simpl; (split; [reflexivity | auto]).
  - destruct (delivers req) eqn:Hd.
    + destruct (fetch_to_file_delivers (length (heap s)) u
                  (local_fname id (Rendition.video_codec b))
                  (started id d b w s) w' req Hopen Hd) as (ws & Hf & _).
      rewrite Hf. simpl. split; [apply closed_subset|].
      intros p Hp Hin. specialize (Hp x). rewrite <- Hx in Hp. now apply closed_keeps.
    + destruct (fetch_to_file_breaks (length (heap s)) u
                  (local_fname id (Rendition.video_codec b))
                  (started id d b w s) w' req Hopen Hd) as (e & ws & rest & Hf & _).
      rewrite Hf.
      destruct e; simpl; (split; [apply closed_subset|]);
        intros p Hp Hin; specialize (Hp x); rewrite <- Hx in Hp; now apply closed_keeps.
Qed.

Lemma process_video_handles csv id s :
  opened (snd (process_video csv id s)) ⊆ opened s /\
  forall p, (forall x, p <> DOWNLOAD_DIR +:+ x) -> p ∈ opened s ->
            p ∈ opened (snd (process_video csv id s)).
Proof.
  pose proof (download_video_handles id s) as Hh.
  destruct (download_video_result id s) as (r & s1 & Hrun & _ & _ & Hr).
  rewrite Hrun in Hh. cbn [snd] in Hh.
  unfold process_video, mbind, M_bind, bind. rewrite Hrun.
  destruct Hr as [-> | [[-> [v Hv]] | ->]]; [exact Hh | | exact Hh].
  pose proof (lookup_lt_Some _ _ _ Hv) as Hlt.
  rewrite (upload_video_run _ s1 v Hv).
  destruct (create_video (world s1) (submitted v)) as [w [e|new_id]]; [exact Hh|].
  unfold getattr. simpl heap.
  rewrite !list_lookup_insert_eq by assumption.
  unfold record_old_new_ids, fwrite, setattr, modify. simpl. exact Hh.
Qed.

Lemma for_each_handles csv ids : forall s,
  opened (snd (for_each (process_video csv) ids s)) ⊆ opened s /\
  forall p, (forall x, p <> DOWNLOAD_DIR +:+ x) -> p ∈ opened s ->
            p ∈ opened (snd (for_each (process_video csv) ids s)).
Proof.
  induction ids as [|id ids IH]; intros s; [split; [reflexivity | auto]|].
  pose proof (process_video_handles csv id s) as [Hsub Hkeep].
  simpl. unfold mbind, M_bind, bind.
  destruct (process_video csv id s) as [[[]|e|] s1]; cbn [snd] in Hsub, Hkeep;
    [|split; [exact Hsub | exact Hkeep]..].
  destruct (IH s1) as [Hsub' Hkeep']. split; [now transitivity (opened s1)|].
  intros p Hp Hin. apply Hkeep'; [exact Hp|]. now apply Hkeep.
Qed.

(** A list that ends normally or on the guard leaves nothing open; one
    that ends on the [NameError] leaves its CSV open, and nothing else. *)
Lemma process_videos_list_handles fname s nm :
  g_name s = Some nm ->
  (fst (process_videos_list fname s) <> Raise (NameError "url") ->
   opened (snd (process_videos_list fname s)) ⊆ opened s) /\
  (fst (process_videos_list fname s) = Raise (NameError "url") ->
   csvfname_of fname ∈ opened (snd (process_videos_list fname s)) /\
   opened (snd (process_videos_list fname s)) ⊆ {[csvfname_of fname]} ∪ opened s).
Proof.
  intros Hnm. destruct (fs s !! fname) as [ws|] eqn:Hin.
  2:{ rewrite (process_videos_list_missing fname s Hin). simpl.
      split; [reflexivity | discriminate]. }
  destruct (fs s !! csvfname_of fname) as [old|] eqn:Hcsv.
  { rewrite (process_videos_list_guard fname s ws old nm Hin Hcsv Hnm). simpl.
    split; [reflexivity | discriminate]. }
  rewrite (process_videos_list_run fname s ws nm Hin Hnm Hcsv).
  destruct (for_each_handles (csvfname_of fname)
              (map Str.strip (Str.readlines (contents ws)))
              (csv_opened (csvfname_of fname) nm s)) as [Hsub Hkeep].
  specialize (Hkeep (csvfname_of fname) (csv_not_download fname)).
  destruct (for_each_result (csvfname_of fname)
              (map Str.strip (Str.readlines (contents ws)))
              (csv_opened (csvfname_of fname) nm s)) as (r & s1 & Hrun & Hr & _).
  rewrite Hrun in Hsub, Hkeep. simpl in Hsub, Hkeep.
  unfold mbind, M_bind, bind. rewrite Hrun.
  destruct Hr as [-> | ->]; simpl.
  - split; [|discriminate]. intros _ q Hq.
    apply elem_of_difference in Hq as [Hq Hne]. apply Hsub in Hq.
    apply elem_of_union in Hq as [Hq|Hq]; [contradiction | exact Hq].
  - split; [congruence|]. intros _. split; [|exact Hsub].
    apply Hkeep, elem_of_union. left. now apply elem_of_singleton.
Qed.

Lemma process_lists_handles argv : forall s,
  (fst (process_lists argv s) <> Raise (NameError "url") ->
   opened (snd (process_lists argv s)) ⊆ opened s) /\
  (fst (process_lists argv s) = Raise (NameError "url") ->
   exists fname,
     In fname argv /\
     csvfname_of fname ∈ opened (snd (process_lists argv s)) /\
     opened (snd (process_lists argv s)) ⊆ {[csvfname_of fname]} ∪ opened s).
Proof.
  induction argv as [|fname rest IH]; intros s.
  - simpl. split; [reflexivity | discriminate].
  - destruct (process_videos_list_handles fname (set_g_name (Some fname) s) fname eq_refl)
      as [Hclean Hleft].
    destruct (process_videos_list_result fname (set_g_name (Some fname) s) fname eq_refl)
      as (r1 & s1 & Hrun1 & Hr1 & _).
    rewrite Hrun1 in Hclean, Hleft. cbn [fst snd] in Hclean, Hleft.
    assert (Hstep : (modify (set_g_name (Some fname));; process_videos_list fname) s
                    = (r1, s1)).
    { unfold mbind, M_bind, bind, modify. now rewrite Hrun1. }
    unfold process_lists.
    destruct Hr1 as [-> | [-> | ->]].
    + rewrite (for_each_ok _ fname rest s s1 Hstep). fold (process_lists rest).
      destruct (IH s1) as [Hclean' Hleft'].
      specialize (Hclean ltac:(discriminate)). simpl in Hclean.
      split.
      * intros Hr. specialize (Hclean' Hr). now transitivity (opened s1).
      * intros Hr. destruct (Hleft' Hr) as (f & Hf & Hin & Hsub).
        exists f. split; [now right|]. split; [exact Hin|].
        intros q Hq. apply Hsub in Hq. apply elem_of_union in Hq as [Hq|Hq];
          apply elem_of_union; [now left | right; now apply Hclean].
    + rewrite (for_each_raise _ fname rest s s1 _ Hstep). cbn [fst snd].
      specialize (Hclean ltac:(discriminate)). simpl in Hclean.
      split; [intros _; exact Hclean | discriminate].
    + rewrite (for_each_raise _ fname rest s s1 _ Hstep). cbn [fst snd].
      destruct (Hleft eq_refl) as [Hin Hsub]. simpl in Hsub.
      split; [congruence|]. intros _. exists fname. split; [now left|]. now split.
Qed.

(** X7. What a run leaves behind. The script never deletes a file:
    every path that names a file before a run names one after it,
    however the run ends. Of the files it opens for writing, a run that
    ends normally or on the guard of an existing CSV leaves none open:
    each CSV was closed by [csv.close()] and each download by its
    [with] block. A run that ends on the [NameError] leaves open the
    CSV of the list it was processing, and no other. (The lists, opened
    for reading at line 76, are not among the files [opened] follows.) *)
Theorem main_files_and_handles argv s :
  keeps_files s (snd (main argv s)) /\
  (fst (main argv s) <> Raise (NameError "url") ->
   opened (snd (main argv s)) ⊆ opened s) /\
  (fst (main argv s) = Raise (NameError "url") ->
   exists fname,
     In fname argv /\
     csvfname_of fname ∈ opened (snd (main argv s)) /\
     opened (snd (main argv s)) ⊆ {[csvfname_of fname]} ∪ opened s).
Proof.
  split.
  { destruct (main_result argv s) as (r & s' & Hrun & _ & Hk & _). now rewrite Hrun. }
  destruct (process_lists_handles argv (set_log (log s ++ [(INFO, "Start")]) s))
    as [Hclean Hleft].
  change (main argv s)
    with ((process_lists argv;; logger_info "Done.")
            (set_log (log s ++ [(INFO, "Start")]) s)).
  unfold mbind, M_bind, bind.
  destruct (process_lists argv _) as [[[]|e|] s1]; cbn [fst snd] in *.
  - split; [intros _; apply Hclean; discriminate | discriminate].
  - split; [exact Hclean | exact Hleft].
  - split; [exact Hclean | exact Hleft].
Qed.

(** X8. A list cannot be run twice. Once the module has run on a list
    that exists, however that run ended, a later run that starts with
    the same list and finds the files as the first run left them ends at
    once on [SystemExit(1)], without changing any file: the CSV of the
    first run is in the way. *)
Theorem rerun_blocked fname rest s ws s2 rest2 :
  fs s !! fname = Some ws ->
  fs s2 = fs (snd (main (fname :: rest) s)) ->
  exists s3,
    main (fname :: rest2) s2 = (Raise (SystemExit 1), s3) /\ fs s3 = fs s2.
Proof.
  intros Hin H2.
  destruct (main_result (fname :: rest) s) as (r & s' & Hrun & _ & Hk & Hcsv).
  rewrite Hrun in H2. simpl in H2.
  assert (Hin' : is_Some (fs s2 !! fname)) by (rewrite H2; apply Hk; rewrite Hin; eauto).
  assert (Hcsv' : is_Some (fs s2 !! csvfname_of fname)).
  { rewrite H2. apply (Hcsv fname rest eq_refl). rewrite Hin. eauto. }
  destruct Hin' as [ws' Hin'], Hcsv' as [old Hcsv'].
  exact (main_guard fname rest2 s2 ws' old Hin' Hcsv').
Qed.

(** ** The path of a video that migrates *)

Lemma insert_last {A} (l : list A) (x y : A) : <[length l := y]> (l ++ [x]) = l ++ [y].
Proof. induction l as [|z l IH]; simpl; [reflexivity | now f_equal]. Qed.

Lemma local_fname_download id codec : exists x, local_fname id codec = DOWNLOAD_DIR +:+ x.
Proof. rewrite local_fname_extension. eauto. Qed.

(** X9. One video from end to end. When the source account knows the
    video, its best rendition arrives whole and the destination accepts
    the record, the loop body ends normally: the local file holds the
    body; the record given to the destination has no identifier and no
    renditions, the destination connection, the local file name and the
    metadata of the source; the CSV gains the one row of the line of the
    list and the identifier the destination assigned; and the object
    carries the line of the list as its identifier again. *)
Theorem process_video_migrates csv id s w d b u w' req w'' new_id rows :
  find_video_by_id (world s) OLDCONN id = (w, Some d) ->
  best_rendition (vd_renditions d) = Some b ->
  Rendition.url b = Some u ->
  urlopen w u = (w', inr req) ->
  delivers req = true ->
  create_video w'
    (Video.mk None None NEWCONN (Some (local_fname id (Rendition.video_codec b)))
       (vd_metadata d))
  = (w'', inr new_id) ->
  (forall x, csv <> DOWNLOAD_DIR +:+ x) ->
  fs s !! csv = Some rows ->
  exists s',
    process_video csv id s = (Ok tt, s') /\
    fs s' !! csv = Some (rows ++ [csv_row id new_id]) /\
    contents <$> fs s' !! local_fname id (Rendition.video_codec b) = Some (body req) /\
    heap s'
    = heap s ++ [Video.mk (Some id) None NEWCONN
                   (Some (local_fname id (Rendition.video_codec b))) (vd_metadata d)] /\
    world s' = w''.
Proof.
  intros Hfind Hb Hu Hopen Hd Hcreate Hcsv Hrows.
  set (fname := local_fname id (Rendition.video_codec b)) in *.
  destruct (fetch_to_file_delivers (length (heap s)) u fname (started id d b w s) w' req
              Hopen Hd) as (ws & Hf & Hcat & _).
  set (s1 := downloaded_state (length (heap s)) fname ws w' (started id d b w s)) in *.
  assert (Hdl : download_video id s = (Ok (PRef (length (heap s))), s1)).
  { rewrite (download_video_started id s w d b u Hfind Hb Hu).
    unfold mbind, M_bind, bind. fold fname. now rewrite Hf. }
  set (v := Video.set_filename (Some fname) (fetched d)).
  assert (Hheap1 : heap s1 = heap s ++ [v]).
  { unfold s1, downloaded_state, started. simpl. apply alter_last. }
  assert (Hv : heap s1 !! length (heap s) = Some v) by (rewrite Hheap1; apply lookup_last).
  pose proof (upload_video_run (length (heap s)) s1 v Hv) as Hup.
  change (create_video (world s1) (submitted v))
    with (create_video w' (Video.mk None None NEWCONN (Some fname) (vd_metadata d)))
    in Hup.
  rewrite Hcreate in Hup. rewrite Hheap1, insert_last in Hup.
  assert (Hne : csv <> fname).
  { destruct (local_fname_download id (Rendition.video_codec b)) as [x Hx].
    unfold fname. rewrite Hx. apply Hcsv. }
  unfold process_video, mbind, M_bind, bind. rewrite Hdl, Hup.
  unfold getattr at 1. simpl heap. rewrite lookup_last. simpl.
  unfold record_old_new_ids, fwrite, setattr, modify. simpl.
  eexists. split; [reflexivity|]. simpl.
  split; [|split; [|split; [|reflexivity]]].
  - rewrite lookup_alter_eq, lookup_insert_ne by congruence. now rewrite Hrows.
  - rewrite lookup_alter_ne, lookup_insert_eq by congruence. simpl.
    unfold contents. now rewrite Hcat.
  - now rewrite alter_last.
Qed.

(** ** Lists that share a base name *)

Lemma has_slash_join d x : Str.has_slash (d +:+ "/" +:+ x) = true.
Proof.
  induction d as [|c d IH]; [reflexivity|].
  rewrite append_cons. simpl. rewrite IH. apply orb_true_r.
Qed.

Lemma basename_join d base :
  Str.has_slash base = false -> Str.basename (d +:+ "/" +:+ base) = base.
Proof.
  intros Hb. induction d as [|c d IH].
  - change ("" +:+ "/" +:+ base) with (String "/" base). simpl. now rewrite Hb.
  - rewrite append_cons. simpl. now rewrite has_slash_join.
Qed.

(** X14. Two lists with the same base name. The CSV of a list is named
    after the base name of its path only, so two lists of the same name
    in different directories share it. A run on both, when both exist,
    does not end normally; and when the first list alone goes through,
    the run on both ends on [SystemExit(1)], raised by the guard at the
    second list, with the files as the first list left them. *)
Theorem same_base_name_lists d1 d2 base rest s ws1 ws2 :
  Str.has_slash base = false ->
  fs s !! (d1 +:+ "/" +:+ base) = Some ws1 ->
  fs s !! (d2 +:+ "/" +:+ base) = Some ws2 ->
  csvfname_of (d1 +:+ "/" +:+ base) = csvfname_of (d2 +:+ "/" +:+ base) /\
  fst (main ((d1 +:+ "/" +:+ base) :: (d2 +:+ "/" +:+ base) :: rest) s) <> Ok tt /\
  (fst (main [d1 +:+ "/" +:+ base] s) = Ok tt ->
   exists s2,
     main ((d1 +:+ "/" +:+ base) :: (d2 +:+ "/" +:+ base) :: rest) s
     = (Raise (SystemExit 1), s2) /\
     fs s2 = fs (snd (main [d1 +:+ "/" +:+ base] s))).
Proof.
  intros Hb H1 H2.
  assert (Hsame : csvfname_of (d1 +:+ "/" +:+ base) = csvfname_of (d2 +:+ "/" +:+ base)).
  { unfold csvfname_of. now rewrite !basename_join. }
  split; [exact Hsame|].
  set (f1 := d1 +:+ "/" +:+ base) in *. set (f2 := d2 +:+ "/" +:+ base) in *.
  set (s0 := set_log (log s ++ [(INFO, "Start")]) s).
  set (step := fun name => modify (set_g_name (Some name));; process_videos_list name).
  change (main (f1 :: f2 :: rest) s)
    with ((for_each step (f1 :: f2 :: rest);; logger_info "Done.") s0).
  change (main [f1] s) with ((for_each step [f1];; logger_info "Done.") s0).
  destruct (process_videos_list_result f1 (set_g_name (Some f1) s0) f1 eq_refl)
    as (r1 & s1 & Hrun1 & Hr1 & Hk1 & _ & Hcsv1 & _).
  assert (Hstep1 : step f1 s0 = (r1, s1)).
  { unfold step, mbind, M_bind, bind, modify. now rewrite Hrun1. }
  unfold mbind, M_bind, bind.
  destruct Hr1 as [-> | [-> | ->]].
  - assert (E1 : for_each step [f1] s0 = (Ok tt, s1)).
    { now rewrite (for_each_ok step f1 [] s0 s1 Hstep1). }
    assert (Hin2 : is_Some (fs s1 !! f2)) by (apply Hk1; simpl; rewrite H2; eauto).
    assert (Hc2 : is_Some (fs s1 !! csvfname_of f2)).
    { rewrite <- Hsame. apply Hcsv1. simpl. rewrite H1. eauto. }
    destruct Hin2 as [ws Hin2], Hc2 as [old Hc2].
    pose proof (process_videos_list_guard f2 (set_g_name (Some f2) s1) ws old f2
                  Hin2 Hc2 eq_refl) as Hg.
    assert (Hstep2 : exists s2, step f2 s1 = (Raise (SystemExit 1), s2) /\ fs s2 = fs s1).
    { eexists. unfold step, mbind, M_bind, bind, modify. rewrite Hg. now split. }
    destruct Hstep2 as (s2 & Hstep2 & Hfs2).
    assert (E2 : for_each step (f1 :: f2 :: rest) s0 = (Raise (SystemExit 1), s2)).
    { rewrite (for_each_ok step f1 (f2 :: rest) s0 s1 Hstep1).
      exact (for_each_raise step f2 rest s1 s2 (SystemExit 1) Hstep2). }
    rewrite E1, E2. split; [discriminate|]. intros _. exists s2.
    split; [reflexivity | exact Hfs2].
  - rewrite (for_each_raise step f1 [] s0 s1 _ Hstep1),
      (for_each_raise step f1 (f2 :: rest) s0 s1 _ Hstep1).
    split; [discriminate|]. intros H. discriminate H.
  - rewrite (for_each_raise step f1 [] s0 s1 _ Hstep1),
      (for_each_raise step f1 (f2 :: rest) s0 s1 _ Hstep1).
    split; [discriminate|]. intros H. discriminate H.
Qed.

(** X15. A video the destination rejects, from end to end. When the
    download succeeds and the destination rejects the record, the loop
    body ends normally: the CSV is as it was, the downloaded file stays
    on disk with the whole body, and the object is left without
    identifier and renditions, on the destination connection. *)
Theorem process_video_rejected_leaves_file csv id s w d b u w' req w'' e :
  find_video_by_id (world s) OLDCONN id = (w, Some d) ->
  best_rendition (vd_renditions d) = Some b ->
  Rendition.url b = Some u ->
  urlopen w u = (w', inr req) ->
  delivers req = true ->
  create_video w'
    (Video.mk None None NEWCONN (Some (local_fname id (Rendition.video_codec b)))
       (vd_metadata d))
  = (w'', inl e) ->
  (forall x, csv <> DOWNLOAD_DIR +:+ x) ->
  exists s',
    process_video csv id s = (Ok tt, s') /\
    fs s' !! csv = fs s !! csv /\
    contents <$> fs s' !! local_fname id (Rendition.video_codec b) = Some (body req) /\
    heap s'
    = heap s ++ [Video.mk None None NEWCONN
                   (Some (local_fname id (Rendition.video_codec b))) (vd_metadata d)] /\
    world s' = w''.
Proof.
  intros Hfind Hb Hu Hopen Hd Hcreate Hcsv.
  set (fname := local_fname id (Rendition.video_codec b)) in *.
  destruct (fetch_to_file_delivers (length (heap s)) u fname (started id d b w s) w' req
              Hopen Hd) as (ws & Hf & Hcat & _).
  set (s1 := downloaded_state (length (heap s)) fname ws w' (started id d b w s)) in *.
  assert (Hdl : download_video id s = (Ok (PRef (length (heap s))), s1)).
  { rewrite (download_video_started id s w d b u Hfind Hb Hu).
    unfold mbind, M_bind, bind. fold fname. now rewrite Hf. }
  set (v := Video.set_filename (Some fname) (fetched d)).
  assert (Hheap1 : heap s1 = heap s ++ [v]).
  { unfold s1, downloaded_state, started. simpl. apply alter_last. }
  assert (Hv : heap s1 !! length (heap s) = Some v) by (rewrite Hheap1; apply lookup_last).
  pose proof (upload_video_run (length (heap s)) s1 v Hv) as Hup.
  change (create_video (world s1) (submitted v))
    with (create_video w' (Video.mk None None NEWCONN (Some fname) (vd_metadata d)))
    in Hup.
  rewrite Hcreate in Hup. rewrite Hheap1, insert_last in Hup.
  assert (Hne : csv <> fname).
  { destruct (local_fname_download id (Rendition.video_codec b)) as [x Hx].
    unfold fname. rewrite Hx. apply Hcsv. }
  unfold process_video, mbind, M_bind, bind. rewrite Hdl, Hup.
  eexists. split; [reflexivity|]. simpl.
  split; [|split; [|split; reflexivity]].
  - now rewrite lookup_insert_ne by congruence.
  - rewrite lookup_insert_eq. simpl. unfold contents. now rewrite Hcat.
Qed.

(** ** Blank lines of a list *)

Lemma readlines_line w b :
  has_newline w = false -> Str.readlines (w +:+ nl +:+ b) = (w +:+ nl) :: Str.readlines b.
Proof.
  intros Hw. induction w as [|c w IH]; [reflexivity|].
  simpl in Hw. apply orb_false_iff in Hw as [Hc Hw].
  rewrite !append_cons. simpl. rewrite Hc, (IH Hw). reflexivity.
Qed.

Lemma lstrip_all_space w : all_space w = true -> Str.lstrip (w +:+ nl) = "".
Proof.
  intros Hw. induction w as [|c w IH]; [reflexivity|].
  simpl in Hw. apply andb_true_iff in Hw as [Hc Hw].
  rewrite append_cons. simpl. rewrite Hc. now apply IH.
Qed.

(** The first thing the loop body does with an identifier is to log the
    line of [download_video] for it. *)
Lemma download_video_logged id s :
  exists r s' l,
    download_video id s = (r, s') /\
    log s' = log s ++ (INFO, "Video(" +:+ id +:+ ")") :: l /\
    (r = Ok PNone \/
     (r = Ok (PRef (length (heap s))) /\ is_Some (heap s' !! length (heap s))) \/
     r = Raise (NameError "url")).
Proof.
  destruct (find_video_by_id (world s) OLDCONN id) as [w [d|]] eqn:Hfind.
  2:{ rewrite (download_video_missing id s w Hfind).
      eexists _, _, _. split; [reflexivity|]. split; [reflexivity|]. now left. }
  destruct (best_rendition (vd_renditions d)) as [b|] eqn:Hb.
  2:{ rewrite (download_video_no_candidate id s w d Hfind Hb).
      eexists _, _, _. split; [reflexivity|]. split; [reflexivity|]. now left. }
  destruct (best_rendition_url _ _ Hb) as [u Hu].
  rewrite (download_video_started id s w d b u Hfind Hb Hu).
  unfold mbind, M_bind, bind.
  destruct (urlopen w u) as [w' [e|req]] eqn:Hopen.
  - rewrite (fetch_to_file_refused _ u _ (started id d b w s) w' e Hopen).
    eexists _, _, _. split; [destruct e; reflexivity|].
    split; [reflexivity|]. now right; right.
  - destruct (delivers req) eqn:Hd.
    + destruct (fetch_to_file_delivers (length (heap s)) u
                  (local_fname id (Rendition.video_codec b))
                  (started id d b w s) w' req Hopen Hd) as (ws & Hf & _).
      rewrite Hf. eexists _, _, _. split; [reflexivity|].
      split; [reflexivity|].
      right; left. split; [reflexivity|]. simpl.
      rewrite alter_last, lookup_last. eauto.
    + destruct (fetch_to_file_breaks (length (heap s)) u
                  (local_fname id (Rendition.video_codec b))
                  (started id d b w s) w' req Hopen Hd) as (e & ws & rest & Hf & _).
      rewrite Hf. eexists _, _, _. split; [destruct e; reflexivity|].
      split; [reflexivity|]. now right; right.
Qed.

Lemma process_video_logged csv id s :
  exists l, log (snd (process_video csv id s))
            = log s ++ (INFO, "Video(" +:+ id +:+ ")") :: l.
Proof.
  destruct (download_video_logged id s) as (r & s1 & l & Hrun & Hlog & Hr).
  unfold process_video, mbind, M_bind, bind. rewrite Hrun.
  destruct Hr as [-> | [[-> [v Hv]] | ->]].
  - now exists l.
  - pose proof (lookup_lt_Some _ _ _ Hv) as Hlt.
    rewrite (upload_video_run _ s1 v Hv).
    destruct (create_video (world s1) (submitted v)) as [w [e|new_id]].
    + eexists. simpl. rewrite Hlog, <- app_assoc. reflexivity.
    + unfold getattr at 1. simpl heap.
      rewrite list_lookup_insert_eq by assumption.
      unfold record_old_new_ids, fwrite, setattr, modify.
      now exists l.
  - now exists l.
Qed.

Lemma for_each_logged csv ids : forall s s',
  for_each (process_video csv) ids s = (Ok tt, s') ->
  (exists l, log s' = log s ++ l) /\
  forall id, In id ids -> In (INFO, "Video(" +:+ id +:+ ")") (log s').
Proof.
  induction ids as [|id ids IH]; intros s s' H.
  - injection H as <-. split; [exists []; now rewrite app_nil_r | intros ? []].
  - simpl in H. unfold mbind, M_bind, bind in H.
    destruct (process_video_logged csv id s) as [l1 Hl1].
    destruct (process_video csv id s) as [[[]|e|] s1]; try discriminate H.
    simpl in Hl1. destruct (IH s1 s' H) as [[l2 Hl2] Hin].
    split.
    + exists ((INFO, "Video(" +:+ id +:+ ")") :: l1 ++ l2).
      rewrite Hl2, Hl1, <- app_assoc. reflexivity.
    + intros id' [<-|Hid']; [|now apply Hin].
      rewrite Hl2, Hl1. apply in_or_app. left. apply in_or_app. right. now left.
Qed.

(** X12. Blank lines of a list. The identifiers of a file are those of
    its part up to a line feed followed by those of the rest, and a line
    that is empty or holds whitespace only gives the empty identifier.
    Nothing skips it: in a run of [process_videos_list] that returns,
    [download_video] has been called for every identifier of the list,
    the empty one included, as the line it logs first shows. *)
Theorem identifiers_lines a w b :
  all_space w = true ->
  has_newline w = false ->
  identifiers (a +:+ nl +:+ b) = identifiers (a +:+ nl) ++ identifiers b /\
  identifiers (a +:+ nl +:+ w +:+ nl +:+ b)
  = identifiers (a +:+ nl) ++ "" :: identifiers b /\
  forall fname s ws nm s',
    fs s !! fname = Some ws ->
    contents ws = a +:+ nl +:+ w +:+ nl +:+ b ->
    g_name s = Some nm ->
    fs s !! csvfname_of fname = None ->
    process_videos_list fname s = (Ok tt, s') ->
    forall id, In id (identifiers (a +:+ nl) ++ "" :: identifiers b) ->
               In (INFO, "Video(" +:+ id +:+ ")") (log s').
Proof.
  intros Hw1 Hw2.
  assert (Hblank : identifiers (a +:+ nl +:+ w +:+ nl +:+ b)
                   = identifiers (a +:+ nl) ++ "" :: identifiers b).
  { unfold identifiers. rewrite readlines_app, map_app, (readlines_line w b Hw2).
    cbn [map]. unfold Str.strip at 2. now rewrite (lstrip_all_space w Hw1). }
  split; [unfold identifiers; now rewrite readlines_app, map_app|].
  split; [exact Hblank|].
  intros fname s ws nm s' Hin Hcat Hnm Hcsv Hrun id Hid.
  rewrite (process_videos_list_run fname s ws nm Hin Hnm Hcsv) in Hrun.
  unfold mbind, M_bind, bind in Hrun.
  destruct (for_each (process_video (csvfname_of fname))
              (map Str.strip (Str.readlines (contents ws)))
              (csv_opened (csvfname_of fname) nm s)) as [[[]|e|] s1] eqn:Hloop;
    try discriminate Hrun.
  injection Hrun as <-.
  destruct (for_each_logged _ _ _ _ Hloop) as [_ Hall]. simpl.
  apply Hall. fold (identifiers (contents ws)). now rewrite Hcat, Hblank.
Qed.

End Coverage.

(** * The theorems at work on the demo platform *)

#[local] Existing Instance Demo.platform.

(** Of the renditions of [A] the third is chosen: the second is larger
    but is no candidate, the fifth is as large but comes later; and [E],
    which has no candidate, is skipped. *)
Lemma best_rendition_selection_witness :
  best_rendition Demo.renditions_A
  = Some (Rendition.mk (Some "http://cdn/a-high.mp4") "H264" 50) /\
  first_largest (candidates Demo.renditions_A)
    (Rendition.mk (Some "http://cdn/a-high.mp4") "H264" 50) /\
  candidates (vd_renditions Demo.video_E) = [] /\
  fst (download_video "E" Demo.start) = Ok PNone.
Proof.
  destruct best_rendition_selection as (_ & Hsel & Hskip).
  split; [reflexivity|].
  split; [exact (Hsel Demo.renditions_A)|].
  split; [reflexivity|].
  destruct (Hskip "E" Demo.start 0 Demo.video_E eq_refl eq_refl) as (s' & Hrun & _).
  rewrite Hrun. reflexivity.
Defined.

Lemma download_video_not_found_witness :
  find_video_by_id (world Demo.start) OLDCONN "B" = (0, None) /\
  fst (download_video "B" Demo.start) = Ok PNone /\
  fs (snd (download_video "B" Demo.start)) = fs Demo.start.
Proof.
  split; [reflexivity|].
  destruct (download_video_not_found "B" Demo.start 0 eq_refl)
    as (s1 & Hrun & _ & Hfs & _).
  rewrite Hrun. split; [reflexivity | exact Hfs].
Defined.

(** The server of [T] answers 404; the connection to [K] breaks. *)
Lemma download_video_transport_error_witness :
  urlopen (world Demo.start) "http://down/t.mp4" = (0, inl (HTTPError "404")) /\
  fst (download_video "T" Demo.start) = Raise (NameError "url") /\
  delivers (mkResponse Demo.body_A (Some (4097, URLError "timed out"))) = false /\
  fst (download_video "K" Demo.start) = Raise (NameError "url").
Proof.
  split; [reflexivity|].
  destruct (download_video_transport_error "T" Demo.start 0 Demo.video_T
              (Rendition.mk (Some "http://down/t.mp4") "H264" 3) "http://down/t.mp4" 0
              eq_refl eq_refl eq_refl) as [Hopen _].
  destruct (Hopen (HTTPError "404") eq_refl) as (s' & Hrun & _).
  split; [rewrite Hrun; reflexivity|].
  split; [vm_compute; reflexivity|].
  destruct (download_video_transport_error "K" Demo.start 0 Demo.video_K
              (Rendition.mk (Some "http://cut/k.mp4") "H264" 3) "http://cut/k.mp4" 0
              eq_refl eq_refl eq_refl) as [_ Hread].
  destruct (Hread (mkResponse Demo.body_A (Some (4097, URLError "timed out")))
              eq_refl ltac:(vm_compute; reflexivity)) as (s'' & ws & rest & Hrun' & _).
  rewrite Hrun'. reflexivity.
Defined.


Lemma upload_video_clears_then_submits_witness :
  heap Demo.ready !! 0 = Some Demo.downloaded_A /\
  create_video (world Demo.ready) (submitted Demo.downloaded_A) = (1, inr "N0") /\
  exists s',
    upload_video (PRef 0) Demo.ready = (Ok (PRef 0), s') /\
    Video.id <$> heap s' !! 0 = Some (Some "N0").
Proof.
  split; [reflexivity|]. split; [reflexivity|].
  destruct (upload_video_clears_then_submits 0 Demo.ready Demo.downloaded_A eq_refl)
    as (_ & _ & _ & Hok).
  destruct (Hok 1 "N0" eq_refl) as (s' & Hrun & Hheap & _).
  exists s'. split; [exact Hrun|]. rewrite Hheap. reflexivity.
Defined.

Lemma upload_video_rejection_not_undone_witness :
  heap Demo.ready !! 1 = Some Demo.downloaded_R /\
  create_video (world Demo.ready) (submitted Demo.downloaded_R)
  = (0, inl (mkIllegalValueError "304" "invalid value")) /\
  exists s',
    upload_video (PRef 1) Demo.ready = (Ok PNone, s') /\
    heap s' !! 1
    = Some (Video.mk None None NEWCONN (Some "./downloads/R.mp4") []).
Proof.
  split; [reflexivity|]. split; [reflexivity|].
  destruct (upload_video_rejection_not_undone 1 Demo.ready Demo.downloaded_R 0
              (mkIllegalValueError "304" "invalid value") eq_refl eq_refl)
    as (s' & Hrun & Hheap & _).
  exists s'. split; [exact Hrun | exact Hheap].
Defined.

Lemma process_videos_list_missing_file_witness :
  fs Demo.start !! "nope.txt" = None /\
  fst (process_videos_list "nope.txt" Demo.start) = Ok tt /\
  fst (main ["nope.txt"; "empty.txt"] Demo.start) = Ok tt /\
  fs (snd (main ["nope.txt"; "empty.txt"] Demo.start)) !! "./old_new_ids-empty.txt.csv"
  = Some [csv_header].
Proof.
  split; [reflexivity|].
  destruct (process_videos_list_missing_file "nope.txt" Demo.start eq_refl)
    as (Hrun & _ & Hmain).
  split; [rewrite Hrun; reflexivity|].
  rewrite (Hmain ["empty.txt"]). split; vm_compute; reflexivity.
Defined.

Lemma process_videos_list_existing_csv_witness :
  fs Demo.start !! "old.txt" = Some ["A" +:+ nl] /\
  fs Demo.start !! csvfname_of "old.txt" = Some [csv_header; csv_row "A" "N41"] /\
  exists s',
    main ["old.txt"; "lists/abc.txt"] Demo.start = (Raise (SystemExit 1), s') /\
    fs s' = fs Demo.start /\
    exit_status (fst (main ["old.txt"; "lists/abc.txt"] Demo.start)) = Some 1%Z.
Proof.
  split; [reflexivity|]. split; [reflexivity|].
  destruct (process_videos_list_existing_csv "old.txt" Demo.start
              ["A" +:+ nl] [csv_header; csv_row "A" "N41"] eq_refl eq_refl)
    as [_ Hmain].
  destruct (Hmain ["lists/abc.txt"]) as (s' & Hrun & Hexit & Hfs & _).
  exists s'. split; [exact Hrun|]. split; [exact Hfs | exact Hexit].
Defined.

(** C4. The mapping file of a list in which one download hits a
    transport error, on the demo platform: of [A], [T], [C] the second
    gets a 404. The run ends on a [NameError] (exit status 1) with the
    CSV still open and holding the header and the row of [A] only; [C],
    which migrates when the list is [A], [B], [C], is never processed. *)
Theorem batch_aborts_on_transport_error :
  Str.readlines (Str.concat ["A" +:+ nl +:+ "T" +:+ nl +:+ "C" +:+ nl])
  = ["A" +:+ nl; "T" +:+ nl; "C" +:+ nl] /\
  fst (main ["atc.txt"] Demo.start) = Raise (NameError "url") /\
  exit_status (fst (main ["atc.txt"] Demo.start)) = Some 1%Z /\
  fs (snd (main ["atc.txt"] Demo.start)) !! "./old_new_ids-atc.txt.csv"
  = Some [csv_header; csv_row "A" "N0"] /\
  "./old_new_ids-atc.txt.csv" ∈ opened (snd (main ["atc.txt"] Demo.start)) /\
  fst (main ["lists/abc.txt"] Demo.start) = Ok tt /\
  fs (snd (main ["lists/abc.txt"] Demo.start)) !! "./old_new_ids-abc.txt.csv"
  = Some [csv_header; csv_row "A" "N0"; csv_row "C" "N1"].
Proof.
  repeat split; vm_compute; reflexivity.
Qed.

(** C10. A list whose only identifier hits a transport error, on the
    demo platform: the CSV is created and receives the header, then the
    run ends on a [NameError] (exit status 1) and [csv.close()] is never
    reached, whereas the lists whose identifiers are missing, without
    candidate or rejected, and the empty list, end with a closed CSV
    that holds the header only. *)
Theorem barren_list_left_open_on_transport_error :
  fst (main ["t.txt"] Demo.start) = Raise (NameError "url") /\
  exit_status (fst (main ["t.txt"] Demo.start)) = Some 1%Z /\
  fs (snd (main ["t.txt"] Demo.start)) !! "./old_new_ids-t.txt.csv" = Some [csv_header] /\
  "./old_new_ids-t.txt.csv" ∈ opened (snd (main ["t.txt"] Demo.start)) /\
  fst (main ["be.txt"; "empty.txt"] Demo.start) = Ok tt /\
  fs (snd (main ["be.txt"; "empty.txt"] Demo.start)) !! "./old_new_ids-be.txt.csv"
  = Some [csv_header] /\
  fs (snd (main ["be.txt"; "empty.txt"] Demo.start)) !! "./old_new_ids-empty.txt.csv"
  = Some [csv_header] /\
  opened (snd (main ["be.txt"; "empty.txt"] Demo.start)) = ∅.
Proof.
  repeat split; vm_compute; reflexivity.
Qed.

Lemma mapping_file_rows_witness :
  fs Demo.start !! "lists/abc.txt" = Some ["A" +:+ nl +:+ "  B " +:+ nl +:+ "C" +:+ nl] /\
  map Str.strip (Str.readlines (contents ["A" +:+ nl +:+ "  B " +:+ nl +:+ "C" +:+ nl]))
  = ["A"; "B"; "C"] /\
  exists s',
    process_videos_list "lists/abc.txt" (set_g_name (Some "lists/abc.txt") Demo.start)
    = (Ok tt, s') /\
    fs s' !! "./old_new_ids-abc.txt.csv"
    = Some [csv_header; csv_row "A" "N0"; csv_row "C" "N1"].
Proof.
  split; [reflexivity|]. split; [vm_compute; reflexivity|].
  destruct (mapping_file_rows "lists/abc.txt"
              (set_g_name (Some "lists/abc.txt") Demo.start)
              ["A" +:+ nl +:+ "  B " +:+ nl +:+ "C" +:+ nl] "lists/abc.txt"
              eq_refl eq_refl eq_refl) as (r & s' & Hrun & Hrows & Hok).
  destruct (Hok ltac:(vm_compute; reflexivity)) as [-> _].
  exists s'. split; [exact Hrun|].
  etransitivity; [exact Hrows|]. vm_compute. reflexivity.
Defined.

(** [B] is missing, [E] has no candidate, [R] is rejected. *)
Lemma barren_list_header_only_witness :
  fs Demo.start !! "be.txt" = Some ["B" +:+ nl +:+ "E" +:+ nl +:+ "R"] /\
  exists s',
    process_videos_list "be.txt" (set_g_name (Some "be.txt") Demo.start) = (Ok tt, s') /\
    fs s' !! "./old_new_ids-be.txt.csv" = Some [csv_header].
Proof.
  split; [reflexivity|].
  destruct (barren_list_header_only "be.txt" (set_g_name (Some "be.txt") Demo.start)
              ["B" +:+ nl +:+ "E" +:+ nl +:+ "R"] "be.txt" eq_refl eq_refl eq_refl
              ltac:(vm_compute; reflexivity) ltac:(vm_compute; reflexivity))
    as (s' & Hrun & Hrows & _).
  exists s'. split; [exact Hrun | exact Hrows].
Defined.

(** Read backwards, the renditions of [A] give another rendition of the
    same size. *)
Lemma best_rendition_size_permutation_witness :
  Permutation Demo.renditions_A (rev Demo.renditions_A) /\
  best_rendition (rev Demo.renditions_A)
  = Some (Rendition.mk (Some "http://cdn/a-mid.mp4") "H264" 50) /\
  Rendition.size <$> best_rendition Demo.renditions_A
  = Rendition.size <$> best_rendition (rev Demo.renditions_A).
Proof.
  split; [apply Permutation_rev|]. split; [reflexivity|].
  exact (best_rendition_size_permutation Demo.renditions_A (rev Demo.renditions_A)
           (Permutation_rev Demo.renditions_A)).
Defined.

(** After a run on [lists/abc.txt], a second run on it stops at once. *)
Lemma rerun_blocked_witness :
  fs Demo.start !! "lists/abc.txt" = Some ["A" +:+ nl +:+ "  B " +:+ nl +:+ "C" +:+ nl] /\
  exists s3,
    main ["lists/abc.txt"; "empty.txt"] (snd (main ["lists/abc.txt"] Demo.start))
    = (Raise (SystemExit 1), s3) /\
    fs s3 = fs (snd (main ["lists/abc.txt"] Demo.start)).
Proof.
  split; [reflexivity|].
  exact (rerun_blocked "lists/abc.txt" [] Demo.start
           ["A" +:+ nl +:+ "  B " +:+ nl +:+ "C" +:+ nl]
           (snd (main ["lists/abc.txt"] Demo.start)) ["empty.txt"] eq_refl eq_refl).
Defined.

(** [C] migrates: its seven bytes reach [./downloads/C.m2ts] and its row
    is appended to the mapping file. *)
Lemma process_video_migrates_witness :
  find_video_by_id (world Demo.start) OLDCONN "C" = (0, Some Demo.video_C) /\
  urlopen 0 "http://cdn/c.m2ts" = (0, inr (mkResponse "0123456" None)) /\
  create_video 0 (Video.mk None None NEWCONN (Some "./downloads/C.m2ts") [])
  = (1, inr "N0") /\
  exists s',
    process_video "./old_new_ids-old.txt.csv" "C" Demo.start = (Ok tt, s') /\
    fs s' !! "./old_new_ids-old.txt.csv"
    = Some ([csv_header; csv_row "A" "N41"] ++ [csv_row "C" "N0"]) /\
    contents <$> fs s' !! "./downloads/C.m2ts" = Some "0123456".
Proof.
  split; [reflexivity|]. split; [reflexivity|]. split; [reflexivity|].
  destruct (process_video_migrates "./old_new_ids-old.txt.csv" "C" Demo.start
              0 Demo.video_C (Rendition.mk (Some "http://cdn/c.m2ts") "M2TS" 7)
              "http://cdn/c.m2ts" 0 (mkResponse "0123456" None) 1 "N0"
              [csv_header; csv_row "A" "N41"]
              eq_refl eq_refl eq_refl eq_refl ltac:(vm_compute; reflexivity) eq_refl
              ltac:(intros x H; vm_compute in H; discriminate H) eq_refl)
    as (s' & Hrun & Hcsv & Hfile & _).
  exists s'. split; [exact Hrun|]. split; [exact Hcsv | exact Hfile].
Defined.

(** The second line of [lists/abc.txt] is [  B ] with its newline. *)
Lemma identifiers_trimmed_witness :
  identifiers ("A" +:+ nl +:+ "  B " +:+ nl +:+ "C" +:+ nl) = ["A"; "B"; "C"] /\
  has_newline "B" = false /\ starts_with_space "B" = false /\
  ends_with_space "B" = false.
Proof.
  split; [vm_compute; reflexivity|].
  apply (identifiers_trimmed ("A" +:+ nl +:+ "  B " +:+ nl +:+ "C" +:+ nl) "B").
  vm_compute. right. left. reflexivity.
Defined.

(** The row of [A] is that of no other pair of identifiers without
    quotes, and an identifier with quotes gives a row that reads as the
    row of [A]. *)
Lemma csv_row_unambiguous_witness :
  has_dq "A" = false /\
  (forall oldid newid,
     has_dq oldid = false -> csv_row "A" "N0" = csv_row oldid newid ->
     oldid = "A" /\ newid = "N0") /\
  csv_row ("A" +:+ dq +:+ "," +:+ dq +:+ "B") "N0"
  = csv_row "A" ("B" +:+ dq +:+ "," +:+ dq +:+ "N0").
Proof.
  destruct csv_row_unambiguous as [Hinj Hclash].
  split; [reflexivity|]. split.
  - intros oldid newid Ho H.
    destruct (Hinj "A" "N0" oldid newid eq_refl Ho H) as [-> ->]. now split.
  - exact (Hclash "A" "B" "N0").
Defined.

(** [lists/abc.txt] and [more/abc.txt] share [./old_new_ids-abc.txt.csv]. *)
Lemma same_base_name_lists_witness :
  fs two_directories !! "lists/abc.txt"
  = Some ["A" +:+ nl +:+ "  B " +:+ nl +:+ "C" +:+ nl] /\
  fs two_directories !! "more/abc.txt" = Some ["C" +:+ nl] /\
  csvfname_of "lists/abc.txt" = "./old_new_ids-abc.txt.csv" /\
  csvfname_of "more/abc.txt" = "./old_new_ids-abc.txt.csv" /\
  fst (main ["lists/abc.txt"] two_directories) = Ok tt /\
  fst (main ["lists/abc.txt"; "more/abc.txt"] two_directories) = Raise (SystemExit 1).
Proof.
  split; [vm_compute; reflexivity|]. split; [vm_compute; reflexivity|].
  split; [vm_compute; reflexivity|]. split; [vm_compute; reflexivity|].
  split; [vm_compute; reflexivity|].
  destruct (same_base_name_lists "lists" "more" "abc.txt" [] two_directories
              ["A" +:+ nl +:+ "  B " +:+ nl +:+ "C" +:+ nl] ["C" +:+ nl]
              eq_refl ltac:(vm_compute; reflexivity) ltac:(vm_compute; reflexivity))
    as (_ & _ & Hguard).
  destruct (Hguard ltac:(vm_compute; reflexivity)) as (s2 & Hrun & _).
  exact (f_equal fst Hrun).
Defined.

(** The destination rejects [R]: its three bytes stay in
    [./downloads/R.mp4] and the mapping file is as it was. *)
Lemma process_video_rejected_leaves_file_witness :
  find_video_by_id (world Demo.start) OLDCONN "R" = (0, Some Demo.video_R) /\
  urlopen 0 "http://cdn/r.mp4" = (0, inr (mkResponse "xyz" None)) /\
  create_video 0 (Video.mk None None NEWCONN (Some "./downloads/R.mp4") [])
  = (0, inl (mkIllegalValueError "304" "invalid value")) /\
  exists s',
    process_video "./old_new_ids-old.txt.csv" "R" Demo.start = (Ok tt, s') /\
    fs s' !! "./old_new_ids-old.txt.csv" = Some [csv_header; csv_row "A" "N41"] /\
    contents <$> fs s' !! "./downloads/R.mp4" = Some "xyz".
Proof.
  split; [reflexivity|]. split; [reflexivity|]. split; [reflexivity|].
  destruct (process_video_rejected_leaves_file "./old_new_ids-old.txt.csv" "R" Demo.start
              0 Demo.video_R (Rendition.mk (Some "http://cdn/r.mp4") "H264" 3)
              "http://cdn/r.mp4" 0 (mkResponse "xyz" None) 0
              (mkIllegalValueError "304" "invalid value")
              eq_refl eq_refl eq_refl eq_refl ltac:(vm_compute; reflexivity) eq_refl
              ltac:(intros x H; vm_compute in H; discriminate H))
    as (s' & Hrun & Hcsv & Hfile & _).
  exists s'. split; [exact Hrun|]. split; [|exact Hfile].
  rewrite Hcsv. reflexivity.
Defined.

(** The second line of [gap.txt] holds two spaces: the list is run with
    the empty identifier between [A] and [C]. *)
Lemma identifiers_lines_witness :
  all_space "  " = true /\
  has_newline "  " = false /\
  fs with_blank_line !! "gap.txt" = Some ["A" +:+ nl +:+ "  " +:+ nl +:+ "C" +:+ nl] /\
  identifiers ("A" +:+ nl +:+ "  " +:+ nl +:+ "C" +:+ nl) = ["A"; ""; "C"] /\
  fst (process_videos_list "gap.txt" (set_g_name (Some "gap.txt") with_blank_line))
  = Ok tt /\
  In (INFO, "Video()")
    (log (snd (process_videos_list "gap.txt"
                 (set_g_name (Some "gap.txt") with_blank_line)))).
Proof.
  split; [reflexivity|]. split; [reflexivity|]. split; [vm_compute; reflexivity|].
  destruct (identifiers_lines "A" "  " ("C" +:+ nl) eq_refl eq_refl)
    as (_ & Hid & Hlog).
  split; [rewrite Hid; vm_compute; reflexivity|].
  split; [vm_compute; reflexivity|].
  exact (Hlog "gap.txt" (set_g_name (Some "gap.txt") with_blank_line)
           ["A" +:+ nl +:+ "  " +:+ nl +:+ "C" +:+ nl] "gap.txt"
           (snd (process_videos_list "gap.txt"
                   (set_g_name (Some "gap.txt") with_blank_line)))
           ltac:(vm_compute; reflexivity) ltac:(vm_compute; reflexivity) eq_refl
           ltac:(vm_compute; reflexivity) ltac:(vm_compute; reflexivity)
           "" ltac:(vm_compute; right; left; reflexivity)).
Defined.

(** [T], whose server answers 404, does not come back as [False]; [A]
    comes back as the object built for it. *)
Lemma download_video_never_false_witness :
  fst (download_video "T" Demo.start) <> Ok PFalse /\
  fst (download_video "A" Demo.start) = Ok (PRef 0) /\
  (PRef 0 = PNone \/ PRef 0 = PRef (length (heap Demo.start))).
Proof.
  split; [exact (proj1 (download_video_never_false "T" Demo.start))|].
  split; [vm_compute; reflexivity|].
  exact (proj2 (download_video_never_false "A" Demo.start) (PRef 0)
           ltac:(vm_compute; reflexivity)).
Defined.

(** The run on [t.txt] ends on the [NameError] with the CSV of the list
    open and nothing else; the run on [lists/abc.txt] and [old.txt],
    which ends on the guard, leaves nothing open. *)
Lemma main_files_and_handles_witness :
  fst (main ["t.txt"] Demo.start) = Raise (NameError "url") /\
  "./old_new_ids-t.txt.csv" ∈ opened (snd (main ["t.txt"] Demo.start)) /\
  opened (snd (main ["t.txt"] Demo.start))
  ⊆ {["./old_new_ids-t.txt.csv"]} ∪ opened Demo.start /\
  fst (main ["lists/abc.txt"; "old.txt"] Demo.start) = Raise (SystemExit 1) /\
  opened (snd (main ["lists/abc.txt"; "old.txt"] Demo.start)) ⊆ opened Demo.start.
Proof.
  assert (Ht : fst (main ["t.txt"] Demo.start) = Raise (NameError "url"))
    by (vm_compute; reflexivity).
  split; [exact Ht|].
  destruct (main_files_and_handles ["t.txt"] Demo.start) as (_ & _ & Hleft).
  destruct (Hleft Ht) as (fname & Hin & Hopen & Hsub).
  destruct Hin as [<-|[]].
  split; [exact Hopen|]. split; [exact Hsub|].
  split; [vm_compute; reflexivity|].
  apply (proj1 (proj2 (main_files_and_handles ["lists/abc.txt"; "old.txt"] Demo.start))).
  intros H. vm_compute in H. discriminate H.
Defined.
